(** * CryptoPlus.Util.padding: a shallow embedding and its properties

    The five padding schemes of [CryptoPlus/Util/padding.py] are embedded as
    functions over byte lists in a small monad that carries what the Python
    code can observe or change: the lines printed on standard output, the
    position in the stream of [random.randint(0, 255)] draws, and a raised
    exception. *)

From Stdlib Require Import ZArith List Lia Bool.
From Stdlib Require Import Strings.Byte Strings.String DecimalString.
Import ListNotations.

Local Open Scope Z_scope.

(** ** The fragment of the Python runtime the module relies on *)

Module Py.

(** The exceptions the module can raise, directly or through a builtin. *)
Inductive exn : Type :=
| ValueError (msg : string)
| IndexError
| ZeroDivisionError
| TypeError
| OverflowError (msg : string).

(** What a call can observe and change outside its arguments. [rng] is the
    sequence of results of [random.randint(0, 255)], [rng_pos] the number of
    draws made so far. *)
Record world : Type := mkWorld {
  stdout : list string;
  rng : nat -> byte;
  rng_pos : nat
}.

Definition M (A : Type) : Type := world -> world * (exn + A).

Definition ret {A} (x : A) : M A := fun w => (w, inr x).

Definition bind {A B} (m : M A) (k : A -> M B) : M B :=
  fun w =>
    match m w with
    | (w', inl e) => (w', inl e)
    | (w', inr x) => k x w'
    end.

Definition raise {A} (e : exn) : M A := fun w => (w, inl e).

(** [print(s)] *)
Definition print (s : string) : M unit :=
  fun w => (mkWorld (stdout w ++ [s]) (rng w) (rng_pos w), inr tt).

(** [random.randint(0, 255)] *)
Definition randint_0_255 : M byte :=
  fun w => (mkWorld (stdout w) (rng w) (S (rng_pos w)), inr (rng w (rng_pos w))).

(** The outcome of a call, for statements that do not care about the
    final world. *)
Definition returns {A} (m : M A) (w : world) (x : A) : Prop :=
  snd (m w) = inr x.

Definition raises {A} (m : M A) (w : world) : Prop :=
  exists e, snd (m w) = inl e.

End Py.

Import Py.

Notation "x <- m ;; k" := (bind m (fun x => k))
  (at level 61, m at next level, right associativity).
Notation "m ;;; k" := (bind m (fun _ => k))
  (at level 61, right associativity).

(** *** bytes *)

Definition bytes : Type := list byte.

(** [len(b)] *)
Definition len (b : bytes) : Z := Z.of_nat (List.length b).

(** The integer value of a byte, as indexing a [bytearray] yields it. *)
Definition int_of_byte (x : byte) : Z := Z.of_N (Byte.to_N x).

(** One element of [bytearray([...])]: an int outside [range(0, 256)] is a
    [ValueError]. *)
Definition byte_of_int (z : Z) : M byte :=
  if z <? 0 then raise (ValueError "byte must be in range(0, 256)")
  else match Byte.of_N (Z.to_N z) with
       | Some x => ret x
       | None => raise (ValueError "byte must be in range(0, 256)")
       end.

(** [bytearray(ints)] for a list of ints. *)
Fixpoint bytearray (ints : list Z) : M bytes :=
  match ints with
  | [] => ret []
  | z :: rest =>
      x <- byte_of_int z ;;
      xs <- bytearray rest ;;
      ret (x :: xs)
  end.

(** The byte holding [z], for [z] in [0 .. 255]. *)
Definition byte_holding (z : Z) : byte :=
  match Byte.of_N (Z.to_N z) with Some x => x | None => x00 end.

(** The value of [b * k] when the count is accepted: [k] copies of [b], none
    for a count that is zero or negative. *)
Definition bytes_mul (b : bytes) (k : Z) : bytes :=
  List.concat (repeat b (Z.to_nat k)).

(** [b * k]: the count is first converted to a machine index, and a count
    below [- 2 ^ 63] does not fit one, an [OverflowError], however short [b]
    is. Counts above the largest index are not told apart here: the bytes
    object they ask for cannot exist. *)
Definition bytes_repeat (b : bytes) (k : Z) : M bytes :=
  if k <? - 2 ^ 63
  then raise (OverflowError "cannot fit 'int' into an index-sized integer")
  else ret (bytes_mul b k).

(** [a % b] on ints: floor modulus, [ZeroDivisionError] when [b] is 0. *)
Definition py_mod (a b : Z) : M Z :=
  if b =? 0 then raise ZeroDivisionError else ret (a mod b).

(** A slice bound brought into [0 .. n], as Python does for [b[i:j]]. *)
Definition clamp_index (n i : Z) : Z :=
  if i <? 0 then Z.max 0 (n + i) else Z.min i n.

(** [b[start:stop]]; [None] is an omitted bound. *)
Definition slice (b : bytes) (start stop : option Z) : bytes :=
  let n := len b in
  let lo := match start with None => 0 | Some i => clamp_index n i end in
  let hi := match stop with None => n | Some j => clamp_index n j end in
  firstn (Z.to_nat (hi - lo)) (skipn (Z.to_nat lo) b).

(** [b[i]] on a [bytearray]: an int, or [IndexError] out of range. *)
Definition getitem (b : bytes) (i : Z) : M Z :=
  let n := len b in
  let j := if i <? 0 then n + i else i in
  if (0 <=? j) && (j <? n) then
    match nth_error b (Z.to_nat j) with
    | Some x => ret (int_of_byte x)
    | None => raise IndexError
    end
  else raise IndexError.

Definition bytes_eqb (a b : bytes) : bool :=
  if list_eq_dec byte_eq_dec a b then true else false.

(** [b.rstrip(chars)]: drops the trailing bytes that occur in [chars]. *)
Fixpoint rstrip (b chars : bytes) : bytes :=
  match b with
  | [] => []
  | x :: t =>
      match rstrip t chars with
      | [] => if existsb (Byte.eqb x) chars then [] else [x]
      | r => x :: r
      end
  end.

(** [b.endswith(suffix)] *)
Definition endswith (b suffix : bytes) : bool :=
  (List.length suffix <=? List.length b)%nat
  && bytes_eqb (skipn (List.length b - List.length suffix) b) suffix.

Fixpoint starts_with (sub b : bytes) : bool :=
  match sub, b with
  | [], _ => true
  | _ :: _, [] => false
  | x :: sub', y :: b' => Byte.eqb x y && starts_with sub' b'
  end.

(** Non-overlapping occurrences of a non-empty [sub], scanning left to right;
    [skip] bytes of the last match are still to be passed over. *)
Fixpoint count_from (sub : bytes) (skip : nat) (b : bytes) : Z :=
  match b with
  | [] => 0
  | _ :: t =>
      match skip with
      | S k => count_from sub k t
      | O => if starts_with sub b
             then 1 + count_from sub (pred (List.length sub)) t
             else count_from sub 0 t
      end
  end.

(** The argument of [bytes.count]: a bytes object, or a [str]. *)
Inductive count_arg : Type :=
| ArgBytes (sub : bytes)
| ArgStr (s : string).

(** [b.count(sub, start, stop)]: counts in [b[start:stop]]; a [str] argument
    is a [TypeError]; the empty [sub] matches between all bytes. *)
Definition count (b : bytes) (sub : count_arg) (start stop : Z) : M Z :=
  match sub with
  | ArgStr _ => raise TypeError
  | ArgBytes [] => ret (len (slice b (Some start) (Some stop)) + 1)
  | ArgBytes s => ret (count_from s 0 (slice b (Some start) (Some stop)))
  end.

(** [chr(0)] *)
Definition chr0 : string := String Ascii.zero EmptyString.

(** [str(i)] for an int, as an f-string formats it. *)
Definition str_of_int (i : Z) : string := NilZero.string_of_int (Z.to_int i).

(** ** The module *)

Definition PAD : Z := 0.
Definition UNPAD : Z := 1.

Definition __bit_padding (to_pad : bytes) (length : Z) : M bytes :=
  r <- py_mod (len to_pad) length ;;
  zeros <- bytes_repeat [x00] (length - r - 1) ;;
  let padded := to_pad ++ [x80] ++ zeros in
  ret padded.

Definition __bit_padding_unpad (padded : bytes) : M bytes :=
  if bytes_eqb (slice (rstrip padded [x00]) (Some (-1)) None) [x80]
  then ret (slice (rstrip padded [x00]) None (Some (-1)))
  else ret padded.

Definition bit_padding (pad_data : bytes) (direction : Z) (length : option Z)
  : M bytes :=
  if direction =? PAD then
    match length with
    | None => raise (ValueError "Supply a valid length")
    | Some l => __bit_padding pad_data l
    end
  else if direction =? UNPAD then __bit_padding_unpad pad_data
  else raise (ValueError "Supply a valid direction").

Definition __zeros_padding (toPad : bytes) (length : Z) : M bytes :=
  pad_length <- py_mod (length - len toPad) length ;;
  zeros <- bytes_repeat [x00] pad_length ;;
  ret (toPad ++ zeros).

Definition __zeros_padding_unpad (padded : bytes) : M bytes :=
  ret (rstrip padded [x00]).

Definition zeros_padding (pad_data : bytes) (direction : Z) (length : option Z)
  : M bytes :=
  if direction =? PAD then
    match length with
    | None => raise (ValueError "Supply a valid length")
    | Some l => __zeros_padding pad_data l
    end
  else if direction =? UNPAD then __zeros_padding_unpad pad_data
  else raise (ValueError "Supply a valid direction").

Definition __PKCS7 (to_pad : bytes) (length : Z) : M bytes :=
  r <- py_mod (len to_pad) length ;;
  let amount := length - r in
  pattern <- bytearray [amount] ;;
  pad <- bytes_repeat pattern amount ;;
  ret (to_pad ++ pad).

Definition __PKCS7_unpad (padded : bytes) : M bytes :=
  let pattern := slice padded (Some (-1)) None in
  length <- getitem pattern 0 ;;
  expected <- bytes_repeat pattern length ;;
  if endswith padded expected
  then ret (slice padded None (Some (- length)))
  else
    print "error: padding pattern not recognized" ;;;
    ret padded.

Definition PKCS7 (pad_data : bytes) (direction : Z) (length : option Z)
  : M bytes :=
  if direction =? PAD then
    match length with
    | None => raise (ValueError "Supply a valid length")
    | Some l => __PKCS7 pad_data l
    end
  else if direction =? UNPAD then __PKCS7_unpad pad_data
  else raise (ValueError "Supply a valid direction").

Definition __ANSI_X923 (to_pad : bytes) (length : Z) : M bytes :=
  r <- py_mod (len to_pad) length ;;
  let bytesToPad := length - r in
  trail <- bytearray [bytesToPad] ;;
  zeros <- bytes_repeat [x00] (bytesToPad - 1) ;;
  let pattern := zeros ++ trail in
  ret (to_pad ++ pattern).

Definition __ANSI_X923_unpad (padded : bytes) : M bytes :=
  length <- getitem padded (-1) ;;
  zeros <- count padded (ArgBytes [x00]) (- length) (-1) ;;
  if zeros =? length - 1
  then ret (slice padded None (Some (- length)))
  else
    shown <- count padded (ArgStr chr0) (- length) (-1) ;;
    print ("error: padding pattern not recognized " ++ str_of_int shown) ;;;
    ret padded.

Definition ANSI_X923 (pad_data : bytes) (direction : Z) (length : option Z)
  : M bytes :=
  if direction =? PAD then
    match length with
    | None => raise (ValueError "Supply a valid length")
    | Some l => __ANSI_X923 pad_data l
    end
  else if direction =? UNPAD then __ANSI_X923_unpad pad_data
  else raise (ValueError "Supply a valid direction").

(** [bytearray(random.randint(0, 255) for x in range(0, k))] *)
Fixpoint random_bytes (k : nat) : M bytes :=
  match k with
  | O => ret []
  | S k' =>
      x <- randint_0_255 ;;
      xs <- random_bytes k' ;;
      ret (x :: xs)
  end.

Definition __ISO_10126 (toPad : bytes) (length : Z) : M bytes :=
  r <- py_mod (len toPad) length ;;
  let bytes_to_pad := length - r in
  random_pattern <- random_bytes (Z.to_nat (bytes_to_pad - 1)) ;;
  trailer <- bytearray [bytes_to_pad] ;;
  ret (toPad ++ random_pattern ++ trailer).

Definition __ISO_10126_unpad (padded : bytes) : M bytes :=
  last <- getitem padded (-1) ;;
  ret (slice padded (Some 0) (Some (len padded - last))).

Definition ISO_10126 (pad_data : bytes) (direction : Z) (length : option Z)
  : M bytes :=
  if direction =? PAD then
    match length with
    | None => raise (ValueError "Supply a valid length")
    | Some l => __ISO_10126 pad_data l
    end
  else if direction =? UNPAD then __ISO_10126_unpad pad_data
  else raise (ValueError "Supply a valid direction").

(** ** Vocabulary of the statements *)

(** The number of padding bytes every scheme but zero padding appends to
    [d] for block size [n]. *)
Definition padding_amount (d : bytes) (n : Z) : Z := n - len d mod n.

(** The world after [k] more draws from the random source. *)
Definition advance (w : world) (k : nat) : world :=
  mkWorld (stdout w) (rng w) (rng_pos w + k).

(** The next [k] bytes the random source of [w] yields. *)
Definition draws (w : world) (k : nat) : bytes :=
  map (rng w) (seq (rng_pos w) k).

(** The world after one more line on standard output. *)
Definition printed (w : world) (line : string) : world :=
  mkWorld (stdout w ++ [line]) (rng w) (rng_pos w).

(** A world with nothing printed and a random source stuck on zero. *)
Definition quiet : world := mkWorld [] (fun _ => x00) 0.

(** [d] ends in a zero-valued byte. *)
Definition ends_in_zero (d : bytes) : Prop := exists d', d = d' ++ [x00].

(** [b] ends with the bytes [pattern]. *)
Definition has_suffix (b pattern : bytes) : Prop := exists p, b = p ++ pattern.

(** The trailing pattern a PKCS7 trailer byte [x] declares: its value, that
    many times. *)
Definition PKCS7_pattern (x : byte) : bytes :=
  repeat x (Z.to_nat (int_of_byte x)).

(** The trailing pattern an ANSI X9.23 trailer byte [x] declares: one zero
    byte less than its value, then the trailer. *)
Definition ANSI_X923_pattern (x : byte) : bytes :=
  repeat x00 (Z.to_nat (int_of_byte x - 1)) ++ [x].

(** Pad with a scheme, then unpad the result with the same scheme. *)
Definition roundtrip (scheme : bytes -> Z -> option Z -> M bytes)
  (d : bytes) (n : Z) : M bytes :=
  padded <- scheme d PAD (Some n) ;;
  scheme padded UNPAD None.

(** ** CryptoPlus.Util.util *)

Module Util.

(** The exceptions this module can raise, directly or through a builtin. *)
Inductive exn : Type :=
| OverflowError (msg : string)
| ValueError (msg : string)
| AssertionError
| TypeError (msg : string).

(** The functions of this module touch nothing outside their arguments: a
    call returns a value or raises. *)
Definition result (A : Type) : Type := (exn + A)%type.

(** An argument that may or may not be a [bytes] object. *)
Inductive pyobj : Type :=
| PyBytes (b : bytes)
| PyStr (s : string)
| PyInt (i : Z).

(** [i.bit_length()]: the number of bits of the absolute value of [i]. *)
Definition bit_length (i : Z) : Z :=
  if i =? 0 then 0 else Z.log2 (Z.abs i) + 1.

(** The [k] low-order base-256 digits of [i], most significant first. *)
Fixpoint big_endian (k : nat) (i : Z) : bytes :=
  match k with
  | O => []
  | S k' => big_endian k' (i / 256) ++ [byte_holding (i mod 256)]
  end.

(** [i.to_bytes(length, 'big')], unsigned. The length is first converted to
    a machine index, and one below [- 2 ^ 63] does not fit, an
    [OverflowError] that comes before the sign check. Lengths above the
    largest index are not told apart here: the bytes object they ask for
    cannot exist. *)
Definition to_bytes (i length : Z) : result bytes :=
  if length <? - 2 ^ 63
  then inl (OverflowError "Python int too large to convert to C ssize_t")
  else if length <? 0
  then inl (ValueError "length argument must be non-negative")
  else if i <? 0
  then inl (OverflowError "can't convert negative int to unsigned")
  else if 256 ^ length <=? i then inl (OverflowError "int too big to convert")
  else inr (big_endian (Z.to_nat length) i).

(** [int.from_bytes(b, 'big')], unsigned. *)
Definition from_bytes (b : bytes) : Z :=
  fold_left (fun acc x => acc * 256 + int_of_byte x) b 0.

Definition number2string (i : Z) : result bytes :=
  to_bytes i ((7 + bit_length i) / 8).

Definition number2string_N (i n : Z) : result bytes :=
  match number2string i with
  | inl e => inl e
  | inr _ => to_bytes i n
  end.

Definition string2number (i : bytes) : Z := from_bytes i.

Definition xorstring (a b : bytes) : result bytes :=
  if len a =? len b
  then number2string_N (Z.lxor (string2number a) (string2number b)) (len a)
  else inl AssertionError.

(** An instance of [Counter]: the one field [__init__] sets. *)
Record Counter : Type := mkCounter { c : Z }.

Definition __init__ (initial_ctr : pyobj) : result Counter :=
  match initial_ctr with
  | PyBytes b => inr (mkCounter (string2number b))
  | _ => inl (TypeError "nonce must be bytes")
  end.

(** [self()]: the instance after the call, and what the call returns or
    raises. *)
Definition __call__ (self : Counter) : Counter * result bytes :=
  match number2string_N (c self) 16 with
  | inl e => (self, inl e)
  | inr ctr => (mkCounter (c self + 1), inr ctr)
  end.

(** [[ctr() for _ in range(k)]]: the instance after the calls, and the
    blocks they returned, or the first exception. *)
Fixpoint blocks (k : nat) (ctr : Counter) : Counter * result (list bytes) :=
  match k with
  | O => (ctr, inr [])
  | S k' =>
      match __call__ ctr with
      | (ctr', inl e) => (ctr', inl e)
      | (ctr', inr block) =>
          match blocks k' ctr' with
          | (ctr'', inl e) => (ctr'', inl e)
          | (ctr'', inr rest) => (ctr'', inr (block :: rest))
          end
      end
  end.

(** The bytewise exclusive or of two bytes. *)
Definition byte_xor (x y : byte) : byte :=
  byte_holding (Z.lxor (int_of_byte x) (int_of_byte y)).

End Util.

(** ** Facts about the runtime fragment *)

Section Runtime.

Lemma len_app (a b : bytes) : len (a ++ b) = len a + len b.
Proof. unfold len. rewrite length_app. lia. Qed.

Lemma len_repeat (x : byte) (k : nat) : len (repeat x k) = Z.of_nat k.
Proof. unfold len. now rewrite repeat_length. Qed.

Lemma len_nonneg (b : bytes) : 0 <= len b.
Proof. unfold len. lia. Qed.

Lemma bytes_mul_single (x : byte) (k : Z) :
  bytes_mul [x] k = repeat x (Z.to_nat k).
Proof.
  unfold bytes_mul. induction (Z.to_nat k) as [|m IH]; simpl; [easy|].
  now rewrite IH.
Qed.

Lemma bytes_repeat_in_range (b : bytes) (k : Z) (w : world) :
  - 2 ^ 63 <= k -> bytes_repeat b k w = (w, inr (bytes_mul b k)).
Proof.
  intros Hk. unfold bytes_repeat.
  destruct (k <? - 2 ^ 63) eqn:E; [apply Z.ltb_lt in E; lia|reflexivity].
Qed.

Lemma bytes_repeat_nonneg (b : bytes) (k : Z) (w : world) :
  0 <= k -> bytes_repeat b k w = (w, inr (bytes_mul b k)).
Proof.
  intros Hk. apply bytes_repeat_in_range.
  assert (- 2 ^ 63 < 0) by reflexivity. lia.
Qed.

Lemma bytes_repeat_below_index (b : bytes) (k : Z) (w : world) :
  k < - 2 ^ 63 ->
  bytes_repeat b k w
  = (w, inl (OverflowError "cannot fit 'int' into an index-sized integer")).
Proof.
  intros Hk. unfold bytes_repeat. apply Z.ltb_lt in Hk. now rewrite Hk.
Qed.

Lemma bytes_eqb_true (a b : bytes) : bytes_eqb a b = true <-> a = b.
Proof. unfold bytes_eqb. destruct (list_eq_dec byte_eq_dec a b); split; congruence. Qed.

Lemma py_mod_nonzero (a b : Z) (w : world) :
  b <> 0 -> py_mod a b w = (w, inr (a mod b)).
Proof. intros H. unfold py_mod. apply Z.eqb_neq in H. now rewrite H. Qed.

Lemma py_mod_zero (a : Z) (w : world) :
  py_mod a 0 w = (w, inl ZeroDivisionError).
Proof. reflexivity. Qed.

Lemma int_of_byte_range (x : byte) : 0 <= int_of_byte x <= 255.
Proof.
  unfold int_of_byte. pose proof (Byte.to_N_bounded x) as H.
  lia.
Qed.

Lemma int_of_byte_holding (z : Z) :
  0 <= z <= 255 -> int_of_byte (byte_holding z) = z.
Proof.
  intros Hz. unfold byte_holding, int_of_byte.
  destruct (Byte.of_N (Z.to_N z)) as [x|] eqn:E.
  - apply Byte.to_of_N in E. rewrite E. lia.
  - apply Byte.of_N_None_iff in E. lia.
Qed.

Lemma byte_holding_int (x : byte) : byte_holding (int_of_byte x) = x.
Proof.
  unfold byte_holding, int_of_byte. rewrite N2Z.id.
  now rewrite Byte.of_to_N.
Qed.

Lemma int_of_byte_inj (x y : byte) : int_of_byte x = int_of_byte y -> x = y.
Proof.
  intros H. rewrite <- (byte_holding_int x), <- (byte_holding_int y).
  now rewrite H.
Qed.

Lemma bytearray_single (z : Z) (w : world) :
  0 <= z <= 255 -> bytearray [z] w = (w, inr [byte_holding z]).
Proof.
  intros Hz. unfold bytearray, byte_of_int, bind, ret, byte_holding.
  destruct (z <? 0) eqn:E; [apply Z.ltb_lt in E; lia|].
  destruct (Byte.of_N (Z.to_N z)) as [x|] eqn:E'; [reflexivity|].
  apply Byte.of_N_None_iff in E'. lia.
Qed.

Lemma bytearray_single_out_of_range (z : Z) (w : world) :
  z < 0 \/ 255 < z ->
  bytearray [z] w = (w, inl (ValueError "byte must be in range(0, 256)")).
Proof.
  intros Hz. unfold bytearray, byte_of_int, bind, raise.
  destruct (z <? 0) eqn:E; [reflexivity|]. apply Z.ltb_ge in E.
  destruct (Byte.of_N (Z.to_N z)) as [x|] eqn:E'; [|reflexivity].
  apply Byte.to_of_N in E'. pose proof (Byte.to_N_bounded x). lia.
Qed.

(** *** Slices and indexing *)

Lemma slice_strip_suffix (d p : bytes) :
  p <> [] -> slice (d ++ p) None (Some (- len p)) = d.
Proof.
  intros Hp. unfold slice, clamp_index. rewrite len_app.
  assert (0 < len p) by (unfold len; destruct p; [congruence|simpl; lia]).
  pose proof (len_nonneg d).
  destruct (- len p <? 0) eqn:E; [|apply Z.ltb_ge in E; lia].
  simpl skipn. replace (Z.max 0 (len d + len p + - len p) - 0) with (len d) by lia.
  unfold len. rewrite Nat2Z.id. rewrite firstn_app, Nat.sub_diag, firstn_all.
  simpl. now rewrite app_nil_r.
Qed.

Lemma slice_prefix (d p : bytes) :
  slice (d ++ p) (Some 0) (Some (len d)) = d.
Proof.
  unfold slice, clamp_index. rewrite len_app.
  pose proof (len_nonneg d). pose proof (len_nonneg p).
  destruct (len d <? 0) eqn:E; [apply Z.ltb_lt in E; lia|].
  simpl. replace (Z.min (len d) (len d + len p) - Z.min 0 (len d + len p))
    with (len d) by lia.
  replace (Z.to_nat (Z.min 0 (len d + len p))) with 0%nat by lia.
  simpl. unfold len. rewrite Nat2Z.id, firstn_app, Nat.sub_diag, firstn_all.
  simpl. now rewrite app_nil_r.
Qed.

Lemma slice_last_byte (d : bytes) (x : byte) :
  slice (d ++ [x]) (Some (-1)) None = [x].
Proof.
  unfold slice, clamp_index. rewrite len_app.
  pose proof (len_nonneg d). change (len [x]) with 1. change (-1 <? 0) with true.
  cbv iota. replace (Z.max 0 (len d + 1 + -1)) with (len d) by lia.
  replace (len d + 1 - len d) with 1 by lia.
  unfold len. rewrite Nat2Z.id, skipn_app, Nat.sub_diag, skipn_all.
  reflexivity.
Qed.

Lemma slice_last_byte_empty : slice [] (Some (-1)) None = [].
Proof. reflexivity. Qed.

Lemma slice_all_but_last (d : bytes) (x : byte) :
  slice (d ++ [x]) None (Some (-1)) = d.
Proof. apply (slice_strip_suffix d [x]). discriminate. Qed.

(** The bytes between the [k]-th from the end and the last one. *)
Lemma slice_before_trailer (d z : bytes) (x : byte) :
  slice (d ++ z ++ [x]) (Some (- (len z + 1))) (Some (-1)) = z.
Proof.
  unfold slice, clamp_index. rewrite !len_app. change (len [x]) with 1.
  pose proof (len_nonneg d). pose proof (len_nonneg z).
  destruct (- (len z + 1) <? 0) eqn:E; [|apply Z.ltb_ge in E; lia].
  change (-1 <? 0) with true. cbv iota.
  replace (Z.max 0 (len d + (len z + 1) + - (len z + 1))) with (len d) by lia.
  replace (Z.max 0 (len d + (len z + 1) + -1) - len d) with (len z) by lia.
  unfold len. rewrite !Nat2Z.id, skipn_app, Nat.sub_diag, skipn_all.
  simpl. rewrite firstn_app, Nat.sub_diag, firstn_all. simpl.
  now rewrite app_nil_r.
Qed.

Lemma getitem_last (d : bytes) (x : byte) (w : world) :
  getitem (d ++ [x]) (-1) w = (w, inr (int_of_byte x)).
Proof.
  unfold getitem. rewrite len_app. change (len [x]) with 1.
  pose proof (len_nonneg d). change (-1 <? 0) with true. cbv iota.
  replace (len d + 1 + -1) with (len d) by lia.
  destruct (0 <=? len d) eqn:E1; [|apply Z.leb_gt in E1; lia].
  destruct (len d <? len d + 1) eqn:E2; [|apply Z.ltb_ge in E2; lia].
  simpl. unfold len. rewrite Nat2Z.id.
  rewrite nth_error_app2 by apply Nat.le_refl.
  now rewrite Nat.sub_diag.
Qed.

Lemma getitem_first (x : byte) (t : bytes) (w : world) :
  getitem (x :: t) 0 w = (w, inr (int_of_byte x)).
Proof.
  unfold getitem. pose proof (len_nonneg t).
  assert (len (x :: t) = len t + 1) as -> by (unfold len; simpl List.length; lia).
  change (0 <? 0) with false. cbv iota. change (0 <=? 0) with true.
  destruct (0 <? len t + 1) eqn:E; [|apply Z.ltb_ge in E; lia].
  reflexivity.
Qed.

Lemma getitem_empty (i : Z) (w : world) :
  getitem [] i w = (w, inl IndexError).
Proof.
  unfold getitem. change (len []) with 0.
  destruct (i <? 0) eqn:E.
  - apply Z.ltb_lt in E. destruct (0 <=? 0 + i) eqn:E1; [apply Z.leb_le in E1; lia|].
    reflexivity.
  - destruct (0 <=? i); [|reflexivity].
    destruct (i <? 0); [discriminate|reflexivity].
Qed.

(** *** rstrip, endswith, count *)

Lemma in_zero_set (x : byte) :
  existsb (Byte.eqb x) [x00] = true <-> x = x00.
Proof.
  simpl. rewrite orb_false_r. split.
  - apply Byte.byte_dec_bl.
  - apply Byte.byte_dec_lb.
Qed.

Lemma rstrip_zeros (k : nat) : rstrip (repeat x00 k) [x00] = [].
Proof. induction k as [|k IH]; simpl; [easy|]. now rewrite IH. Qed.

Lemma rstrip_app_zeros (d : bytes) (k : nat) :
  rstrip (d ++ repeat x00 k) [x00] = rstrip d [x00].
Proof.
  induction d as [|x t IH].
  - simpl. apply rstrip_zeros.
  - simpl app. cbn [rstrip]. now rewrite IH.
Qed.

Lemma rstrip_snoc_nonzero (d : bytes) (x : byte) :
  x <> x00 -> rstrip (d ++ [x]) [x00] = d ++ [x].
Proof.
  intros Hx. induction d as [|y t IH].
  - cbn [app rstrip]. destruct (existsb (Byte.eqb x) [x00]) eqn:E; [|easy].
    apply in_zero_set in E. contradiction.
  - simpl app. cbn [rstrip]. rewrite IH. now destruct t.
Qed.

Lemma rstrip_no_trailing_zero (d : bytes) :
  (forall d', d <> d' ++ [x00]) -> rstrip d [x00] = d.
Proof.
  intros H. induction d as [|x t _] using rev_ind; [reflexivity|].
  apply rstrip_snoc_nonzero. intros ->. now apply (H t).
Qed.

Lemma rstrip_not_ending_in_zero (d d' : bytes) :
  rstrip d [x00] <> d' ++ [x00].
Proof.
  revert d'. induction d as [|x t IH]; intros d'.
  - simpl. now destruct d'.
  - cbn [rstrip]. destruct (rstrip t [x00]) as [|y r] eqn:E.
    + destruct (existsb (Byte.eqb x) [x00]) eqn:Ex; [now destruct d'|].
      destruct d' as [|z [|? ?]]; simpl; try discriminate.
      intros [= ->]. now rewrite (proj2 (in_zero_set x00)) in Ex.
    + destruct d' as [|z d']; [discriminate|].
      simpl. intros [= -> Heq]. now apply (IH d').
Qed.

Lemma endswith_true (b suffix : bytes) :
  endswith b suffix = true <-> exists p, b = p ++ suffix.
Proof.
  unfold endswith. rewrite andb_true_iff, Nat.leb_le, bytes_eqb_true. split.
  - intros [Hlen Heq].
    remember (List.length b - List.length suffix)%nat as n eqn:Hn. clear Hn.
    exists (firstn n b). rewrite <- Heq. symmetry. apply firstn_skipn.
  - intros [p ->]. rewrite length_app. split; [lia|].
    replace (List.length p + List.length suffix - List.length suffix)%nat
      with (List.length p) by lia.
    rewrite skipn_app, Nat.sub_diag, skipn_all. reflexivity.
Qed.

Lemma count_from_single (c : byte) (b : bytes) :
  count_from [c] 0 b = Z.of_nat (count_occ byte_eq_dec b c).
Proof.
  induction b as [|y t IH]; [reflexivity|].
  cbn [count_from starts_with List.length pred count_occ].
  rewrite IH. destruct (byte_eq_dec y c) as [->|Hne].
  - rewrite (Byte.byte_dec_lb eq_refl). cbn [andb]. lia.
  - destruct (Byte.eqb c y) eqn:E; [|reflexivity].
    apply Byte.byte_dec_bl in E. congruence.
Qed.

Lemma count_occ_repeat_same (c : byte) (k : nat) :
  count_occ byte_eq_dec (repeat c k) c = k.
Proof.
  induction k as [|k IH]; [reflexivity|]. simpl.
  destruct (byte_eq_dec c c); [now rewrite IH|congruence].
Qed.

Lemma count_occ_full (c : byte) (b : bytes) :
  count_occ byte_eq_dec b c = List.length b -> b = repeat c (List.length b).
Proof.
  induction b as [|y t IH]; [reflexivity|]. simpl.
  pose proof (count_occ_bound byte_eq_dec c t).
  destruct (byte_eq_dec y c) as [->|Hne]; intros Hc; [|lia].
  f_equal. apply IH. lia.
Qed.

Lemma count_zero_bytes (b : bytes) (start stop : Z) (w : world) :
  count b (ArgBytes [x00]) start stop w =
  (w, inr (Z.of_nat (count_occ byte_eq_dec
                       (slice b (Some start) (Some stop)) x00))).
Proof. unfold count, ret. now rewrite count_from_single. Qed.

End Runtime.

(** ** What each scheme computes *)

Section Schemes.

Variable w : world.

Lemma bind_returns {A B} (m : M A) (k : A -> M B) (w1 w2 : world) (x : A) :
  m w1 = (w2, inr x) -> bind m k w1 = k x w2.
Proof. intros H. unfold bind. now rewrite H. Qed.

Lemma bind_raises {A B} (m : M A) (k : A -> M B) (w1 w2 : world) (e : exn) :
  m w1 = (w2, inl e) -> bind m k w1 = (w2, inl e).
Proof. intros H. unfold bind. now rewrite H. Qed.

Lemma padding_amount_range (d : bytes) (n : Z) :
  1 <= n -> 1 <= padding_amount d n <= n.
Proof.
  intros Hn. unfold padding_amount.
  pose proof (Z.mod_pos_bound (len d) n). lia.
Qed.

Lemma padding_amount_aligns (d : bytes) (n : Z) :
  1 <= n -> (len d + padding_amount d n) mod n = 0.
Proof.
  intros Hn. unfold padding_amount.
  replace (len d + (n - len d mod n)) with (len d - len d mod n + 1 * n) by lia.
  rewrite Z.mod_add by lia. rewrite <- Zminus_mod_idemp_l, Z.sub_diag.
  apply Z.mod_0_l. lia.
Qed.

Lemma repeat_snoc (x : byte) (k : nat) : repeat x (S k) = repeat x k ++ [x].
Proof. induction k as [|k IH]; [reflexivity|]. simpl in *. now rewrite <- IH. Qed.

(** *** Bit padding *)

Lemma bit_padding_pad (d : bytes) (n : Z) :
  1 <= n ->
  bit_padding d PAD (Some n) w =
  (w, inr (d ++ x80 :: repeat x00 (Z.to_nat (padding_amount d n - 1)))).
Proof.
  intros Hn. unfold bit_padding, __bit_padding. change (PAD =? PAD) with true. cbv iota.
  rewrite (bind_returns _ _ w w (len d mod n)) by (apply py_mod_nonzero; lia).
  pose proof (Z.mod_pos_bound (len d) n ltac:(lia)).
  erewrite bind_returns by (apply bytes_repeat_nonneg; lia).
  unfold ret, padding_amount. now rewrite bytes_mul_single.
Qed.

Lemma bit_padding_unpad_marker (d : bytes) (k : nat) :
  bit_padding (d ++ x80 :: repeat x00 k) UNPAD None w = (w, inr d).
Proof.
  unfold bit_padding, __bit_padding_unpad. change (UNPAD =? PAD) with false.
  change (UNPAD =? UNPAD) with true. cbv iota.
  change (d ++ x80 :: repeat x00 k) with (d ++ [x80] ++ repeat x00 k).
  rewrite app_assoc, rstrip_app_zeros, rstrip_snoc_nonzero by discriminate.
  rewrite slice_last_byte, slice_all_but_last.
  now rewrite (proj2 (bytes_eqb_true [x80] [x80]) eq_refl).
Qed.

(** *** Zero padding *)

Lemma zeros_padding_pad (d : bytes) (n : Z) :
  1 <= n ->
  zeros_padding d PAD (Some n) w =
  (w, inr (d ++ repeat x00 (Z.to_nat ((n - len d) mod n)))).
Proof.
  intros Hn. unfold zeros_padding, __zeros_padding. change (PAD =? PAD) with true. cbv iota.
  rewrite (bind_returns _ _ w w ((n - len d) mod n))
    by (apply py_mod_nonzero; lia).
  pose proof (Z.mod_pos_bound (n - len d) n ltac:(lia)).
  erewrite bind_returns by (apply bytes_repeat_nonneg; lia).
  unfold ret. now rewrite bytes_mul_single.
Qed.

Lemma zeros_padding_unpad (p : bytes) :
  zeros_padding p UNPAD None w = (w, inr (rstrip p [x00])).
Proof. reflexivity. Qed.

(** *** PKCS7 *)

Lemma PKCS7_pad (d : bytes) (n : Z) :
  1 <= n -> padding_amount d n <= 255 ->
  PKCS7 d PAD (Some n) w =
  (w, inr (d ++ repeat (byte_holding (padding_amount d n))
                       (Z.to_nat (padding_amount d n)))).
Proof.
  intros Hn Hfit. pose proof (padding_amount_range d n Hn) as Ha.
  unfold PKCS7, __PKCS7. change (PAD =? PAD) with true. cbv iota.
  rewrite (bind_returns _ _ w w (len d mod n)) by (apply py_mod_nonzero; lia).
  fold (padding_amount d n).
  rewrite (bind_returns _ _ w w [byte_holding (padding_amount d n)])
    by (apply bytearray_single; lia).
  erewrite bind_returns by (apply bytes_repeat_nonneg; lia).
  unfold ret. now rewrite bytes_mul_single.
Qed.

Lemma PKCS7_pad_overflow (d : bytes) (n : Z) :
  1 <= n -> 255 < padding_amount d n ->
  PKCS7 d PAD (Some n) w =
  (w, inl (ValueError "byte must be in range(0, 256)")).
Proof.
  intros Hn Hbig. unfold PKCS7, __PKCS7. change (PAD =? PAD) with true.
  cbv iota.
  rewrite (bind_returns _ _ w w (len d mod n)) by (apply py_mod_nonzero; lia).
  fold (padding_amount d n).
  apply bind_raises, bytearray_single_out_of_range. lia.
Qed.

(** The two branches of [__PKCS7_unpad] on a non-empty input. *)
Lemma PKCS7_unpad_branches (d : bytes) (x : byte) :
  PKCS7 (d ++ [x]) UNPAD None w =
  if endswith (d ++ [x]) (repeat x (Z.to_nat (int_of_byte x)))
  then (w, inr (slice (d ++ [x]) None (Some (- int_of_byte x))))
  else (printed w "error: padding pattern not recognized", inr (d ++ [x])).
Proof.
  unfold PKCS7, __PKCS7_unpad. change (UNPAD =? PAD) with false.
  change (UNPAD =? UNPAD) with true. cbv iota.
  rewrite slice_last_byte.
  rewrite (bind_returns _ _ w w (int_of_byte x)) by apply getitem_first.
  pose proof (int_of_byte_range x).
  erewrite bind_returns by (apply bytes_repeat_nonneg; lia).
  rewrite bytes_mul_single.
  now destruct (endswith (d ++ [x]) (repeat x (Z.to_nat (int_of_byte x)))).
Qed.

Lemma PKCS7_unpad_pattern (d : bytes) (x : byte) :
  1 <= int_of_byte x ->
  PKCS7 (d ++ repeat x (Z.to_nat (int_of_byte x))) UNPAD None w = (w, inr d).
Proof.
  intros Hx. remember (Z.to_nat (int_of_byte x)) as k eqn:Hk.
  destruct k as [|k]; [lia|].
  assert (Hlen : int_of_byte x = len (repeat x (S k)))
    by (rewrite len_repeat; lia).
  rewrite repeat_snoc at 1. rewrite app_assoc, PKCS7_unpad_branches.
  rewrite <- app_assoc, <- repeat_snoc, <- Hk.
  rewrite (proj2 (endswith_true _ _)) by (now exists d).
  rewrite Hlen, slice_strip_suffix; [reflexivity|discriminate].
Qed.

(** *** ANSI X9.23 *)

Lemma ANSI_X923_pad (d : bytes) (n : Z) :
  1 <= n -> padding_amount d n <= 255 ->
  ANSI_X923 d PAD (Some n) w =
  (w, inr (d ++ repeat x00 (Z.to_nat (padding_amount d n - 1))
             ++ [byte_holding (padding_amount d n)])).
Proof.
  intros Hn Hfit. pose proof (padding_amount_range d n Hn) as Ha.
  unfold ANSI_X923, __ANSI_X923. change (PAD =? PAD) with true. cbv iota.
  rewrite (bind_returns _ _ w w (len d mod n)) by (apply py_mod_nonzero; lia).
  fold (padding_amount d n).
  rewrite (bind_returns _ _ w w [byte_holding (padding_amount d n)])
    by (apply bytearray_single; lia).
  erewrite bind_returns by (apply bytes_repeat_nonneg; lia).
  unfold ret. now rewrite bytes_mul_single.
Qed.

Lemma ANSI_X923_pad_overflow (d : bytes) (n : Z) :
  1 <= n -> 255 < padding_amount d n ->
  ANSI_X923 d PAD (Some n) w =
  (w, inl (ValueError "byte must be in range(0, 256)")).
Proof.
  intros Hn Hbig. unfold ANSI_X923, __ANSI_X923.
  change (PAD =? PAD) with true. cbv iota.
  rewrite (bind_returns _ _ w w (len d mod n)) by (apply py_mod_nonzero; lia).
  fold (padding_amount d n).
  apply bind_raises, bytearray_single_out_of_range. lia.
Qed.

(** The two branches of [__ANSI_X923_unpad] on a non-empty input: the second
    one never gets to print. *)
Lemma ANSI_X923_unpad_branches (d : bytes) (x : byte) :
  ANSI_X923 (d ++ [x]) UNPAD None w =
  if Z.of_nat (count_occ byte_eq_dec
                 (slice (d ++ [x]) (Some (- int_of_byte x)) (Some (-1))) x00)
     =? int_of_byte x - 1
  then (w, inr (slice (d ++ [x]) None (Some (- int_of_byte x))))
  else (w, inl TypeError).
Proof.
  unfold ANSI_X923, __ANSI_X923_unpad. change (UNPAD =? PAD) with false.
  change (UNPAD =? UNPAD) with true. cbv iota.
  rewrite (bind_returns _ _ w w (int_of_byte x)) by apply getitem_last.
  erewrite bind_returns by apply count_zero_bytes.
  now destruct (_ =? _).
Qed.

Lemma ANSI_X923_unpad_pattern (d : bytes) (x : byte) :
  1 <= int_of_byte x ->
  ANSI_X923 (d ++ repeat x00 (Z.to_nat (int_of_byte x - 1)) ++ [x]) UNPAD None w
  = (w, inr d).
Proof.
  intros Hx. set (z := repeat x00 (Z.to_nat (int_of_byte x - 1))).
  assert (Hz : len z + 1 = int_of_byte x)
    by (unfold z; rewrite len_repeat; lia).
  rewrite app_assoc, ANSI_X923_unpad_branches, <- app_assoc.
  rewrite <- Hz at 1. rewrite slice_before_trailer.
  unfold z at 1. rewrite count_occ_repeat_same.
  replace (Z.of_nat (Z.to_nat (int_of_byte x - 1)) =? int_of_byte x - 1)
    with true by (symmetry; apply Z.eqb_eq; lia).
  replace (int_of_byte x) with (len (z ++ [x]))
    by (rewrite len_app; exact Hz).
  rewrite slice_strip_suffix; [reflexivity|now destruct z].
Qed.

(** *** ISO 10126 *)

Lemma random_bytes_draws (k : nat) (w1 : world) :
  random_bytes k w1 = (advance w1 k, inr (draws w1 k)).
Proof.
  revert w1. induction k as [|k IH]; intros w1.
  - unfold advance, draws. simpl. rewrite Nat.add_0_r. now destruct w1.
  - cbn [random_bytes]. unfold bind at 1. unfold randint_0_255 at 1.
    unfold bind at 1. rewrite IH. unfold ret, advance, draws. simpl.
    now rewrite Nat.add_succ_r.
Qed.

Lemma draws_length (w1 : world) (k : nat) : List.length (draws w1 k) = k.
Proof. unfold draws. now rewrite length_map, length_seq. Qed.

Lemma len_draws (w1 : world) (k : nat) : len (draws w1 k) = Z.of_nat k.
Proof. unfold len. now rewrite draws_length. Qed.

Lemma ISO_10126_pad (d : bytes) (n : Z) :
  1 <= n -> padding_amount d n <= 255 ->
  ISO_10126 d PAD (Some n) w =
  (advance w (Z.to_nat (padding_amount d n - 1)),
   inr (d ++ draws w (Z.to_nat (padding_amount d n - 1))
          ++ [byte_holding (padding_amount d n)])).
Proof.
  intros Hn Hfit. pose proof (padding_amount_range d n Hn) as Ha.
  unfold ISO_10126, __ISO_10126. change (PAD =? PAD) with true. cbv iota.
  rewrite (bind_returns _ _ w w (len d mod n)) by (apply py_mod_nonzero; lia).
  fold (padding_amount d n).
  erewrite bind_returns by apply random_bytes_draws.
  erewrite bind_returns by (apply bytearray_single; lia).
  reflexivity.
Qed.

Lemma ISO_10126_pad_overflow (d : bytes) (n : Z) :
  1 <= n -> 255 < padding_amount d n ->
  ISO_10126 d PAD (Some n) w =
  (advance w (Z.to_nat (padding_amount d n - 1)),
   inl (ValueError "byte must be in range(0, 256)")).
Proof.
  intros Hn Hbig. unfold ISO_10126, __ISO_10126.
  change (PAD =? PAD) with true. cbv iota.
  rewrite (bind_returns _ _ w w (len d mod n)) by (apply py_mod_nonzero; lia).
  fold (padding_amount d n).
  erewrite bind_returns by apply random_bytes_draws.
  apply bind_raises, bytearray_single_out_of_range. lia.
Qed.

Lemma ISO_10126_unpad_last (d : bytes) (x : byte) (w1 : world) :
  ISO_10126 (d ++ [x]) UNPAD None w1 =
  (w1, inr (slice (d ++ [x]) (Some 0)
              (Some (len (d ++ [x]) - int_of_byte x)))).
Proof.
  unfold ISO_10126, __ISO_10126_unpad. change (UNPAD =? PAD) with false.
  change (UNPAD =? UNPAD) with true. cbv iota.
  now rewrite (bind_returns _ _ w1 w1 (int_of_byte x)) by apply getitem_last.
Qed.

Lemma ISO_10126_unpad_filler (d r : bytes) (x : byte) (w1 : world) :
  int_of_byte x = len r + 1 ->
  ISO_10126 (d ++ r ++ [x]) UNPAD None w1 = (w1, inr d).
Proof.
  intros Hx. rewrite app_assoc, ISO_10126_unpad_last, <- app_assoc.
  replace (len (d ++ r ++ [x]) - int_of_byte x) with (len d)
    by (rewrite !len_app; change (len [x]) with 1; lia).
  now rewrite slice_prefix.
Qed.

End Schemes.

(** ** The examples of the docstrings *)

Example bit_padding_doctest :
  bit_padding [x74; x65; x73; x74] PAD (Some 8) quiet
    = (quiet, inr [x74; x65; x73; x74; x80; x00; x00; x00]) /\
  bit_padding [x74; x65; x73; x74; x80; x00; x00; x00] UNPAD None quiet
    = (quiet, inr [x74; x65; x73; x74]).
Proof. split; reflexivity. Qed.

Example zeros_padding_doctest :
  zeros_padding [x31; x32; x33; x34; x35; x36; x37; x38] PAD (Some 16) quiet
    = (quiet, inr ([x31; x32; x33; x34; x35; x36; x37; x38] ++ repeat x00 8)) /\
  zeros_padding ([x31; x32; x33; x34; x35; x36; x37; x38] ++ repeat x00 8)
    UNPAD None quiet
    = (quiet, inr [x31; x32; x33; x34; x35; x36; x37; x38]).
Proof. split; reflexivity. Qed.

Example PKCS7_doctest :
  PKCS7 [x31; x32; x33; x34; x35; x36; x37; x38] PAD (Some 16) quiet
    = (quiet, inr ([x31; x32; x33; x34; x35; x36; x37; x38] ++ repeat x08 8)) /\
  PKCS7 ([x31; x32; x33; x34; x35; x36; x37; x38] ++ repeat x08 8)
    UNPAD None quiet
    = (quiet, inr [x31; x32; x33; x34; x35; x36; x37; x38]).
Proof. split; reflexivity. Qed.

Example ANSI_X923_doctest :
  ANSI_X923 [x31; x32; x33; x34; x35; x36; x37; x38] PAD (Some 16) quiet
    = (quiet, inr ([x31; x32; x33; x34; x35; x36; x37; x38]
                     ++ repeat x00 7 ++ [x08])) /\
  ANSI_X923 ([x31; x32; x33; x34; x35; x36; x37; x38] ++ repeat x00 7 ++ [x08])
    UNPAD None quiet
    = (quiet, inr [x31; x32; x33; x34; x35; x36; x37; x38]).
Proof. split; reflexivity. Qed.

Example ISO_10126_doctest :
  returns (roundtrip ISO_10126 [x31; x32; x33; x34; x35; x36; x37; x38] 16)
    quiet [x31; x32; x33; x34; x35; x36; x37; x38].
Proof. reflexivity. Qed.

Example unrecognized_direction :
  PKCS7 [x31] 2 (Some 16) quiet
    = (quiet, inl (ValueError "Supply a valid direction")).
Proof. reflexivity. Qed.

(** ** Round trips *)

Lemma roundtrip_eq (scheme : bytes -> Z -> option Z -> M bytes)
  (d p : bytes) (n : Z) (w w' : world) :
  scheme d PAD (Some n) w = (w', inr p) ->
  roundtrip scheme d n w = scheme p UNPAD None w'.
Proof. intros H. unfold roundtrip, bind. now rewrite H. Qed.

Lemma roundtrip_pad_raises (scheme : bytes -> Z -> option Z -> M bytes)
  (d : bytes) (n : Z) (w w' : world) (e : exn) :
  scheme d PAD (Some n) w = (w', inl e) ->
  roundtrip scheme d n w = (w', inl e).
Proof. intros H. unfold roundtrip, bind. now rewrite H. Qed.

Lemma byte_holding_amount (d : bytes) (n : Z) :
  1 <= n -> padding_amount d n <= 255 ->
  int_of_byte (byte_holding (padding_amount d n)) = padding_amount d n.
Proof.
  intros Hn Hfit. pose proof (padding_amount_range d n Hn).
  apply int_of_byte_holding. lia.
Qed.

(** C1, as the code has it: unpadding what was padded gives the data back,
    for bit padding with every block size [n >= 1], and for PKCS7,
    ANSI X9.23 and ISO 10126 whenever the padding amount
    [n - len(d) mod n] fits in a byte (so for every [n] up to 255), whatever
    [len(d)] is. ISO 10126 leaves the random source advanced by the filler it
    drew. *)
Theorem unpad_pad_roundtrip (d : bytes) (n : Z) (w : world) :
  1 <= n ->
  roundtrip bit_padding d n w = (w, inr d) /\
  (padding_amount d n <= 255 ->
   roundtrip PKCS7 d n w = (w, inr d) /\
   roundtrip ANSI_X923 d n w = (w, inr d) /\
   roundtrip ISO_10126 d n w =
     (advance w (Z.to_nat (padding_amount d n - 1)), inr d)).
Proof.
  intros Hn. split.
  - rewrite (roundtrip_eq _ _ _ _ _ _ (bit_padding_pad w d n Hn)).
    apply bit_padding_unpad_marker.
  - intros Hfit. pose proof (padding_amount_range d n Hn) as Ha.
    pose proof (byte_holding_amount d n Hn Hfit) as Hb.
    split; [|split].
    + rewrite (roundtrip_eq _ _ _ _ _ _ (PKCS7_pad w d n Hn Hfit)).
      rewrite <- Hb at 2. apply PKCS7_unpad_pattern. lia.
    + rewrite (roundtrip_eq _ _ _ _ _ _ (ANSI_X923_pad w d n Hn Hfit)).
      rewrite <- Hb at 1. apply ANSI_X923_unpad_pattern. lia.
    + rewrite (roundtrip_eq _ _ _ _ _ _ (ISO_10126_pad w d n Hn Hfit)).
      apply ISO_10126_unpad_filler.
      rewrite Hb. unfold len. rewrite draws_length. lia.
Qed.

Lemma unpad_pad_roundtrip_at_test :
  roundtrip bit_padding [x74; x65; x73; x74] 8 quiet
    = (quiet, inr [x74; x65; x73; x74]) /\
  roundtrip PKCS7 [x74; x65; x73; x74] 8 quiet
    = (quiet, inr [x74; x65; x73; x74]).
Proof.
  destruct (unpad_pad_roundtrip [x74; x65; x73; x74] 8 quiet ltac:(lia))
    as [Hbit Hrest].
  split; [exact Hbit|]. apply Hrest. vm_compute. discriminate.
Defined.

(** With block size 256 and no data the padding amount is 256, which
    [bytearray] refuses: PKCS7 pads nothing, so there is no round trip. *)
Lemma PKCS7_roundtrip_block_256 :
  roundtrip PKCS7 [] 256 quiet
    = (quiet, inl (ValueError "byte must be in range(0, 256)")) /\
  ~ returns (roundtrip PKCS7 [] 256) quiet [].
Proof.
  assert (H : roundtrip PKCS7 [] 256 quiet
              = (quiet, inl (ValueError "byte must be in range(0, 256)")))
    by (apply roundtrip_pad_raises, PKCS7_pad_overflow; vm_compute; easy).
  split; [exact H|]. unfold returns. rewrite H. discriminate.
Qed.

(** ** Unpadding what does not carry the declared pattern *)

(** [b[-k:-1]] is the last [k - 1] bytes before the trailer, or all of them
    when there are fewer. *)
Lemma slice_before_last (d : bytes) (x : byte) (k : Z) :
  1 <= k ->
  slice (d ++ [x]) (Some (- k)) (Some (-1)) =
  skipn (List.length d - Z.to_nat (k - 1)) d.
Proof.
  intros Hk. unfold slice, clamp_index. rewrite len_app.
  change (len [x]) with 1. pose proof (len_nonneg d) as Hd.
  destruct (- k <? 0) eqn:E; [|apply Z.ltb_ge in E; lia].
  change (-1 <? 0) with true. cbv iota.
  replace (Z.max 0 (len d + 1 + -1)) with (len d) by lia.
  replace (Z.to_nat (Z.max 0 (len d + 1 + - k)))
    with (List.length d - Z.to_nat (k - 1))%nat by (unfold len; lia).
  set (m := (List.length d - Z.to_nat (k - 1))%nat).
  replace (Z.to_nat (len d - Z.max 0 (len d + 1 + - k)))
    with (List.length (skipn m d))
    by (rewrite length_skipn; unfold m, len; lia).
  rewrite skipn_app.
  replace (m - List.length d)%nat with 0%nat by (unfold m; lia).
  simpl skipn. rewrite firstn_app, Nat.sub_diag, firstn_all. simpl.
  now rewrite app_nil_r.
Qed.

(** The zero-byte check of [__ANSI_X923_unpad] passes exactly on the inputs
    that end with the pattern their trailer declares, the trailer being at
    least 1. *)
Lemma ANSI_X923_check_passes (d : bytes) (x : byte) :
  Z.of_nat (count_occ byte_eq_dec
              (slice (d ++ [x]) (Some (- int_of_byte x)) (Some (-1))) x00)
  = int_of_byte x - 1 ->
  has_suffix (d ++ [x]) (ANSI_X923_pattern x).
Proof.
  intros Hc. assert (Hk : 1 <= int_of_byte x) by lia.
  rewrite slice_before_last in Hc by exact Hk.
  set (m := (List.length d - Z.to_nat (int_of_byte x - 1))%nat) in *.
  pose proof (count_occ_bound byte_eq_dec x00 (skipn m d)) as Hb.
  assert (Hlen : List.length (skipn m d) = Z.to_nat (int_of_byte x - 1))
    by (rewrite length_skipn in *; unfold m in *; lia).
  exists (firstn m d). unfold ANSI_X923_pattern.
  rewrite <- Hlen, <- count_occ_full by lia.
  now rewrite app_assoc, firstn_skipn.
Qed.

(** C2, as the code has it: on a non-empty input whose trailing bytes do not
    match the pattern its last byte declares (that byte's value, repeated
    that many times), PKCS7 unpad prints a diagnostic line and returns the
    input unchanged, a successful return: no padding error is raised. *)
Theorem unpad_pattern_mismatch (d : bytes) (x : byte) (w : world) :
  ~ has_suffix (d ++ [x]) (PKCS7_pattern x) ->
  PKCS7 (d ++ [x]) UNPAD None w =
    (printed w "error: padding pattern not recognized", inr (d ++ [x])) /\
  ~ raises (PKCS7 (d ++ [x]) UNPAD None) w.
Proof.
  intros Hmis.
  assert (H : PKCS7 (d ++ [x]) UNPAD None w =
              (printed w "error: padding pattern not recognized",
               inr (d ++ [x]))).
  { rewrite PKCS7_unpad_branches. fold (PKCS7_pattern x).
    destruct (endswith (d ++ [x]) (PKCS7_pattern x)) eqn:E; [|reflexivity].
    apply endswith_true in E. contradiction. }
  split; [exact H|]. intros [e He]. rewrite H in He. discriminate.
Qed.

Lemma no_suffix_longer (b pattern : bytes) :
  (List.length b < List.length pattern)%nat -> ~ has_suffix b pattern.
Proof. intros Hlt [p ->]. rewrite length_app in Hlt. lia. Qed.

Lemma unpad_pattern_mismatch_at_9 :
  PKCS7 ([x01] ++ [x09]) UNPAD None quiet =
    (printed quiet "error: padding pattern not recognized",
     inr ([x01] ++ [x09])) /\
  ~ raises (PKCS7 ([x01] ++ [x09]) UNPAD None) quiet.
Proof.
  apply (unpad_pattern_mismatch [x01] x09 quiet).
  apply no_suffix_longer. vm_compute. lia.
Defined.

(** The last byte of [01 02 03] declares three bytes [03]; they are not
    there, and PKCS7 unpad hands the input back as a result. *)
Lemma PKCS7_unpad_mismatch_returns :
  ~ has_suffix [x01; x02; x03] (PKCS7_pattern x03) /\
  returns (PKCS7 [x01; x02; x03] UNPAD None) quiet [x01; x02; x03] /\
  ~ raises (PKCS7 [x01; x02; x03] UNPAD None) quiet.
Proof.
  split; [|split].
  - intros H. apply endswith_true in H. vm_compute in H. discriminate.
  - reflexivity.
  - intros [e H]. vm_compute in H. discriminate.
Qed.

(** C10: whenever the zero-byte check of ANSI X9.23 unpad fails, the call
    does not return the input: formatting the diagnostic calls [bytes.count]
    with a [str], a [TypeError], and nothing is printed. PKCS7 unpad, when
    its own check fails, prints and returns the input. *)
Theorem ANSI_X923_mismatch_raises (d : bytes) (x : byte) (w : world) :
  (Z.of_nat (count_occ byte_eq_dec
               (slice (d ++ [x]) (Some (- int_of_byte x)) (Some (-1))) x00)
   <> int_of_byte x - 1 ->
   ANSI_X923 (d ++ [x]) UNPAD None w = (w, inl TypeError) /\
   ~ returns (ANSI_X923 (d ++ [x]) UNPAD None) w (d ++ [x])) /\
  (endswith (d ++ [x]) (bytes_mul [x] (int_of_byte x)) = false ->
   PKCS7 (d ++ [x]) UNPAD None w =
   (printed w "error: padding pattern not recognized", inr (d ++ [x]))).
Proof.
  split.
  - intros Hne.
    assert (H : ANSI_X923 (d ++ [x]) UNPAD None w = (w, inl TypeError)).
    { rewrite ANSI_X923_unpad_branches. apply Z.eqb_neq in Hne.
      now rewrite Hne. }
    split; [exact H|]. unfold returns. rewrite H. discriminate.
  - rewrite bytes_mul_single. intros Hf.
    now rewrite PKCS7_unpad_branches, Hf.
Qed.

Lemma ANSI_X923_mismatch_raises_at_3 :
  (ANSI_X923 ([x31; x00; x01] ++ [x03]) UNPAD None quiet
     = (quiet, inl TypeError) /\
   ~ returns (ANSI_X923 ([x31; x00; x01] ++ [x03]) UNPAD None) quiet
       ([x31; x00; x01] ++ [x03])) /\
  PKCS7 ([x31; x00; x01] ++ [x03]) UNPAD None quiet =
    (printed quiet "error: padding pattern not recognized",
     inr ([x31; x00; x01] ++ [x03])).
Proof.
  destruct (ANSI_X923_mismatch_raises [x31; x00; x01] x03 quiet) as [Ha Hp].
  split; [apply Ha; vm_compute; discriminate|apply Hp; reflexivity].
Defined.

(** C8: a non-empty input whose last byte is [00] unpads, under PKCS7, to
    the empty sequence: the declared amount is 0, every input ends with the
    empty pattern, and the slice [padded[:-0]] is empty. Nothing is printed
    and nothing raised. *)
Theorem PKCS7_unpad_zero_trailer (d : bytes) (w : world) :
  int_of_byte x00 = 0 /\
  endswith (d ++ [x00]) (bytes_mul [x00] 0) = true /\
  slice (d ++ [x00]) None (Some (- 0)) = [] /\
  PKCS7 (d ++ [x00]) UNPAD None w = (w, inr []).
Proof.
  assert (He : endswith (d ++ [x00]) [] = true).
  { apply endswith_true. exists (d ++ [x00]). now rewrite app_nil_r. }
  assert (Hs : slice (d ++ [x00]) None (Some (- 0)) = []).
  { unfold slice, clamp_index. pose proof (len_nonneg (d ++ [x00])).
    change (- 0 <? 0) with false. cbv iota.
    now replace (Z.min (- 0) (len (d ++ [x00])) - 0) with 0 by lia. }
  split; [reflexivity|]. split; [exact He|]. split; [exact Hs|].
  rewrite PKCS7_unpad_branches. change (Z.to_nat (int_of_byte x00)) with 0%nat.
  simpl repeat. rewrite He. change (int_of_byte x00) with 0. now rewrite Hs.
Qed.

(** C9: on the empty input, bit padding and zero padding unpad to the empty
    sequence; PKCS7, ANSI X9.23 and ISO 10126 unpad raise [IndexError], from
    reading the last byte before anything else. *)
Theorem unpad_empty (w : world) :
  bit_padding [] UNPAD None w = (w, inr []) /\
  zeros_padding [] UNPAD None w = (w, inr []) /\
  PKCS7 [] UNPAD None w = (w, inl IndexError) /\
  ANSI_X923 [] UNPAD None w = (w, inl IndexError) /\
  ISO_10126 [] UNPAD None w = (w, inl IndexError).
Proof. repeat split. Qed.

(** ** Block sizes that are not positive *)

Section NegativeBlockSize.

Variables (d : bytes) (n : Z) (w : world).
Hypothesis Hneg : n < 0.

Lemma negative_amount : padding_amount d n < 0.
Proof.
  unfold padding_amount. pose proof (Z.mod_neg_bound (len d) n Hneg). lia.
Qed.

Lemma bit_padding_negative :
  - 2 ^ 63 < n ->
  bit_padding d PAD (Some n) w = (w, inr (d ++ [x80])).
Proof.
  intros Hfit.
  unfold bit_padding, __bit_padding. change (PAD =? PAD) with true. cbv iota.
  rewrite (bind_returns _ _ w w (len d mod n)) by (apply py_mod_nonzero; lia).
  pose proof negative_amount as Ha. unfold padding_amount in Ha.
  pose proof (Z.mod_neg_bound (len d) n Hneg).
  erewrite bind_returns by (apply bytes_repeat_in_range; lia).
  unfold ret. rewrite bytes_mul_single.
  now replace (Z.to_nat (n - len d mod n - 1)) with 0%nat by lia.
Qed.

Lemma bit_padding_negative_below_index :
  n - len d mod n - 1 < - 2 ^ 63 ->
  bit_padding d PAD (Some n) w
  = (w, inl (OverflowError "cannot fit 'int' into an index-sized integer")).
Proof.
  intros Hbig.
  unfold bit_padding, __bit_padding. change (PAD =? PAD) with true. cbv iota.
  rewrite (bind_returns _ _ w w (len d mod n)) by (apply py_mod_nonzero; lia).
  now apply bind_raises, bytes_repeat_below_index.
Qed.

Lemma zeros_pad_length_negative :
  - len d <= (n - len d) mod n <= 0 /\ n < (n - len d) mod n.
Proof.
  pose proof (Z.mod_neg_bound (n - len d) n Hneg) as Hb.
  pose proof (len_nonneg d) as Hd.
  split; [|lia]. split; [|lia].
  destruct (Z_lt_le_dec (len d) (- n)) as [Hsmall|Hlarge]; [|lia].
  rewrite <- (Z.mod_unique (n - len d) n 1 (- len d)); lia.
Qed.

Lemma zeros_padding_negative :
  - 2 ^ 63 < n \/ len d <= 2 ^ 63 ->
  zeros_padding d PAD (Some n) w = (w, inr d).
Proof.
  intros Hfit.
  unfold zeros_padding, __zeros_padding. change (PAD =? PAD) with true.
  cbv iota.
  rewrite (bind_returns _ _ w w ((n - len d) mod n))
    by (apply py_mod_nonzero; lia).
  pose proof zeros_pad_length_negative as [Hlo Hn].
  erewrite bind_returns by (apply bytes_repeat_in_range; lia).
  unfold ret. rewrite bytes_mul_single.
  replace (Z.to_nat ((n - len d) mod n)) with 0%nat by lia.
  simpl. now rewrite app_nil_r.
Qed.

Lemma PKCS7_negative :
  PKCS7 d PAD (Some n) w =
  (w, inl (ValueError "byte must be in range(0, 256)")).
Proof.
  unfold PKCS7, __PKCS7. change (PAD =? PAD) with true. cbv iota.
  rewrite (bind_returns _ _ w w (len d mod n)) by (apply py_mod_nonzero; lia).
  fold (padding_amount d n). pose proof negative_amount.
  apply bind_raises, bytearray_single_out_of_range. lia.
Qed.

Lemma ANSI_X923_negative :
  ANSI_X923 d PAD (Some n) w =
  (w, inl (ValueError "byte must be in range(0, 256)")).
Proof.
  unfold ANSI_X923, __ANSI_X923. change (PAD =? PAD) with true. cbv iota.
  rewrite (bind_returns _ _ w w (len d mod n)) by (apply py_mod_nonzero; lia).
  fold (padding_amount d n). pose proof negative_amount.
  apply bind_raises, bytearray_single_out_of_range. lia.
Qed.

Lemma ISO_10126_negative :
  ISO_10126 d PAD (Some n) w =
  (w, inl (ValueError "byte must be in range(0, 256)")).
Proof.
  unfold ISO_10126, __ISO_10126. change (PAD =? PAD) with true. cbv iota.
  rewrite (bind_returns _ _ w w (len d mod n)) by (apply py_mod_nonzero; lia).
  fold (padding_amount d n). pose proof negative_amount.
  erewrite bind_returns by apply random_bytes_draws.
  replace (Z.to_nat (padding_amount d n - 1)) with 0%nat by lia.
  replace (advance w 0) with w
    by (unfold advance; rewrite Nat.add_0_r; now destruct w).
  apply bind_raises, bytearray_single_out_of_range. lia.
Qed.

End NegativeBlockSize.

(** C3, as the code has it: in the PAD direction every scheme raises
    [ValueError] for a missing block size and [ZeroDivisionError] for block
    size 0, before it builds any output. A negative block size is not
    checked: PKCS7, ANSI X9.23 and ISO 10126 then raise [ValueError], because
    the negative padding amount is no byte value; bit padding and zero
    padding multiply a zero byte by a negative count, which gives no bytes,
    so that bit padding returns the data followed by the marker byte and
    zero padding the data as it is, for every block size above [- 2 ^ 63]
    (zero padding also below it, for data of up to [2 ^ 63] bytes); when the
    count of bit padding is below [- 2 ^ 63] the multiplication raises
    [OverflowError]. *)
Theorem pad_block_size_checks (d : bytes) (w : world) :
  (bit_padding d PAD None w = (w, inl (ValueError "Supply a valid length")) /\
   zeros_padding d PAD None w = (w, inl (ValueError "Supply a valid length")) /\
   PKCS7 d PAD None w = (w, inl (ValueError "Supply a valid length")) /\
   ANSI_X923 d PAD None w = (w, inl (ValueError "Supply a valid length")) /\
   ISO_10126 d PAD None w = (w, inl (ValueError "Supply a valid length"))) /\
  (bit_padding d PAD (Some 0) w = (w, inl ZeroDivisionError) /\
   zeros_padding d PAD (Some 0) w = (w, inl ZeroDivisionError) /\
   PKCS7 d PAD (Some 0) w = (w, inl ZeroDivisionError) /\
   ANSI_X923 d PAD (Some 0) w = (w, inl ZeroDivisionError) /\
   ISO_10126 d PAD (Some 0) w = (w, inl ZeroDivisionError)) /\
  (forall n, n < 0 ->
   PKCS7 d PAD (Some n) w
     = (w, inl (ValueError "byte must be in range(0, 256)")) /\
   ANSI_X923 d PAD (Some n) w
     = (w, inl (ValueError "byte must be in range(0, 256)")) /\
   ISO_10126 d PAD (Some n) w
     = (w, inl (ValueError "byte must be in range(0, 256)")) /\
   (- 2 ^ 63 < n ->
    bit_padding d PAD (Some n) w = (w, inr (d ++ [x80]))) /\
   (- 2 ^ 63 < n \/ len d <= 2 ^ 63 ->
    zeros_padding d PAD (Some n) w = (w, inr d)) /\
   (n - len d mod n - 1 < - 2 ^ 63 ->
    bit_padding d PAD (Some n) w
    = (w, inl (OverflowError
                 "cannot fit 'int' into an index-sized integer")))).
Proof.
  split; [|split].
  - repeat split.
  - repeat split.
  - intros n Hn. split; [now apply PKCS7_negative|].
    split; [now apply ANSI_X923_negative|].
    split; [now apply ISO_10126_negative|].
    split; [|split].
    + now apply bit_padding_negative.
    + now apply zeros_padding_negative.
    + now apply bit_padding_negative_below_index.
Qed.

Lemma pad_block_size_checks_at_minus_8 :
  (PKCS7 [x61; x62; x63] PAD (Some (-8)) quiet
     = (quiet, inl (ValueError "byte must be in range(0, 256)")) /\
   bit_padding [x61; x62; x63] PAD (Some (-8)) quiet
     = (quiet, inr ([x61; x62; x63] ++ [x80])) /\
   zeros_padding [x61; x62; x63] PAD (Some (-8)) quiet
     = (quiet, inr [x61; x62; x63])) /\
  bit_padding [] PAD (Some (- 2 ^ 63)) quiet
    = (quiet, inl (OverflowError
                     "cannot fit 'int' into an index-sized integer")).
Proof.
  assert (H63 : - 2 ^ 63 < 0) by reflexivity.
  destruct (pad_block_size_checks [x61; x62; x63] quiet) as (_ & _ & Hneg).
  destruct (Hneg (-8) ltac:(lia)) as (Hp & _ & _ & Hb & Hz & _).
  destruct (pad_block_size_checks [] quiet) as (_ & _ & Hneg0).
  destruct (Hneg0 (- 2 ^ 63) H63) as (_ & _ & _ & _ & _ & Hbo).
  split; [split; [exact Hp|split]|].
  - apply Hb. reflexivity.
  - apply Hz. left. reflexivity.
  - apply Hbo. vm_compute. reflexivity.
Defined.

(** Block size [-4] is negative, and bit padding pads with it all the same:
    the call returns the data and the marker byte. *)
Lemma bit_padding_negative_block_size_returns :
  -4 < 0 /\
  bit_padding [x61; x62; x63] PAD (Some (-4)) quiet
    = (quiet, inr [x61; x62; x63; x80]) /\
  ~ raises (bit_padding [x61; x62; x63] PAD (Some (-4))) quiet.
Proof.
  split; [lia|]. split; [reflexivity|].
  intros [e H]. vm_compute in H. discriminate.
Qed.

(** ** Lengths of padded data *)

Lemma zeros_pad_length_aligns (d : bytes) (n : Z) :
  1 <= n -> (len d + (n - len d) mod n) mod n = 0.
Proof.
  intros Hn. rewrite Zplus_mod_idemp_r.
  replace (len d + (n - len d)) with n by lia. apply Z.mod_same. lia.
Qed.

Lemma zeros_pad_nothing_when_aligned (d : bytes) (n : Z) :
  1 <= n -> len d mod n = 0 -> (n - len d) mod n = 0.
Proof.
  intros Hn Hal. rewrite Zminus_mod, Hal, Z.mod_same by lia.
  apply Z.mod_0_l. lia.
Qed.

(** C4, as the code has it: for every block size [n >= 1] bit padding gives
    an output whose length is a multiple of [n] and exceeds [len(d)], and
    zero padding one whose length is a multiple of [n] and equals [len(d)]
    when that is already a multiple; PKCS7, ANSI X9.23 and ISO 10126 give an
    output whose length is a multiple of [n] and exceeds [len(d)] whenever
    the padding amount fits in a byte. *)
Theorem pad_length_aligned (d : bytes) (n : Z) (w : world) :
  1 <= n ->
  (exists p, bit_padding d PAD (Some n) w = (w, inr p) /\
             len p mod n = 0 /\ len d < len p) /\
  (exists p, zeros_padding d PAD (Some n) w = (w, inr p) /\
             len p mod n = 0 /\ (len d mod n = 0 -> len p = len d)) /\
  (padding_amount d n <= 255 ->
   (exists p, PKCS7 d PAD (Some n) w = (w, inr p) /\
              len p mod n = 0 /\ len d < len p) /\
   (exists p, ANSI_X923 d PAD (Some n) w = (w, inr p) /\
              len p mod n = 0 /\ len d < len p) /\
   (exists p w', ISO_10126 d PAD (Some n) w = (w', inr p) /\
                 len p mod n = 0 /\ len d < len p)).
Proof.
  intros Hn. pose proof (padding_amount_range d n Hn) as Ha.
  pose proof (padding_amount_aligns d n Hn) as Hal.
  split; [|split].
  - eexists. split; [now apply bit_padding_pad|].
    rewrite len_app.
    assert (len (x80 :: repeat x00 (Z.to_nat (padding_amount d n - 1)))
            = padding_amount d n) as ->
      by (change (x80 :: ?r) with ([x80] ++ r);
          rewrite len_app, len_repeat; change (len [x80]) with 1; lia).
    split; [exact Hal|lia].
  - eexists. split; [now apply zeros_padding_pad|].
    pose proof (Z.mod_pos_bound (n - len d) n ltac:(lia)).
    rewrite len_app, len_repeat, Z2Nat.id by lia.
    split; [now apply zeros_pad_length_aligns|].
    intros H0. rewrite zeros_pad_nothing_when_aligned by assumption. lia.
  - intros Hfit. split; [|split].
    + eexists. split; [now apply PKCS7_pad|].
      rewrite len_app, len_repeat, Z2Nat.id by lia. split; [exact Hal|lia].
    + eexists. split; [now apply ANSI_X923_pad|].
      rewrite !len_app, len_repeat. change (len [_]) with 1.
      replace (Z.of_nat (Z.to_nat (padding_amount d n - 1)) + 1)
        with (padding_amount d n) by lia.
      split; [exact Hal|lia].
    + do 2 eexists. split; [now apply ISO_10126_pad|].
      rewrite !len_app, len_draws. change (len [_]) with 1.
      replace (Z.of_nat (Z.to_nat (padding_amount d n - 1)) + 1)
        with (padding_amount d n) by lia.
      split; [exact Hal|lia].
Qed.

Lemma pad_length_aligned_at_16 :
  (exists p, zeros_padding [x31; x32; x33] PAD (Some 16) quiet = (quiet, inr p)
             /\ len p mod 16 = 0
             /\ (len [x31; x32; x33] mod 16 = 0 -> len p = len [x31; x32; x33]))
  /\
  (exists p, PKCS7 [x31; x32; x33] PAD (Some 16) quiet = (quiet, inr p)
             /\ len p mod 16 = 0 /\ len [x31; x32; x33] < len p).
Proof.
  destruct (pad_length_aligned [x31; x32; x33] 16 quiet ltac:(lia))
    as (_ & Hz & Hrest).
  split; [exact Hz|].
  destruct Hrest as (Hp & _); [vm_compute; discriminate|exact Hp].
Defined.

(** With block size 256 and no data, ANSI X9.23 pad raises: there is no
    padded output whose length could be a multiple of 256. *)
Lemma ANSI_X923_pad_block_256 :
  1 <= 256 /\
  ANSI_X923 [] PAD (Some 256) quiet
    = (quiet, inl (ValueError "byte must be in range(0, 256)")) /\
  ~ (exists p, returns (ANSI_X923 [] PAD (Some 256)) quiet p
               /\ len p mod 256 = 0).
Proof.
  assert (H : ANSI_X923 [] PAD (Some 256) quiet
              = (quiet, inl (ValueError "byte must be in range(0, 256)")))
    by (apply ANSI_X923_pad_overflow; vm_compute; easy).
  split; [lia|]. split; [exact H|].
  intros (p & Hp & _). unfold returns in Hp. rewrite H in Hp. discriminate.
Qed.

(** ** Zero padding loses trailing zeros *)

Lemma not_ends_in_zero_rstrip (d : bytes) :
  ~ ends_in_zero d -> rstrip d [x00] = d.
Proof.
  intros H. apply rstrip_no_trailing_zero. intros d' ->. apply H. now exists d'.
Qed.

(** C5: under zero padding, unpadding what was padded gives the data back
    when the data does not end in a zero byte; when it does, the zeros it
    ended in are stripped along with the padding. *)
Theorem zeros_padding_roundtrip (d : bytes) (n : Z) (w : world) :
  1 <= n ->
  (~ ends_in_zero d -> roundtrip zeros_padding d n w = (w, inr d)) /\
  (forall (e : bytes) (k : nat),
     ~ ends_in_zero e -> d = e ++ repeat x00 k ->
     roundtrip zeros_padding d n w = (w, inr e)).
Proof.
  intros Hn.
  assert (H : roundtrip zeros_padding d n w = (w, inr (rstrip d [x00]))).
  { rewrite (roundtrip_eq _ _ _ _ _ _ (zeros_padding_pad w d n Hn)).
    rewrite zeros_padding_unpad. now rewrite rstrip_app_zeros. }
  split.
  - intros Hd. now rewrite H, not_ends_in_zero_rstrip.
  - intros e k He ->. rewrite H, rstrip_app_zeros.
    now rewrite not_ends_in_zero_rstrip.
Qed.

Lemma short_not_ends_in_zero (x : byte) : x <> x00 -> ~ ends_in_zero [x].
Proof.
  intros Hx [d' H]. destruct d' as [|y d']; [now injection H|].
  destruct d'; discriminate.
Qed.

Lemma zeros_padding_roundtrip_at_4 :
  roundtrip zeros_padding [x31] 4 quiet = (quiet, inr [x31]) /\
  roundtrip zeros_padding ([x31] ++ repeat x00 2) 4 quiet = (quiet, inr [x31]).
Proof.
  split.
  - apply (zeros_padding_roundtrip [x31] 4 quiet); [lia|].
    apply short_not_ends_in_zero. discriminate.
  - apply (zeros_padding_roundtrip ([x31] ++ repeat x00 2) 4 quiet) with (k := 2%nat);
      [lia| |reflexivity].
    apply short_not_ends_in_zero. discriminate.
Defined.

(** ** ISO 10126 unpad *)

(** C6, as the code has it: on a non-empty input whose last byte, read as
    [amount], is at most the input's length, ISO 10126 unpad returns the
    input without its last [amount] bytes, whatever those bytes are. *)
Theorem ISO_10126_unpad_removes_amount (d : bytes) (x : byte) (w : world) :
  int_of_byte x <= len (d ++ [x]) ->
  exists out removed,
    ISO_10126 (d ++ [x]) UNPAD None w = (w, inr out) /\
    d ++ [x] = out ++ removed /\
    len removed = int_of_byte x /\
    len out = len (d ++ [x]) - int_of_byte x.
Proof.
  intros Hfit. pose proof (int_of_byte_range x) as Hx.
  set (padded := d ++ [x]) in *.
  set (m := Z.to_nat (len padded - int_of_byte x)).
  assert (Hm : (m <= List.length padded)%nat) by (unfold m, len; lia).
  exists (firstn m padded), (skipn m padded).
  assert (Hout : len (firstn m padded) = len padded - int_of_byte x)
    by (unfold len at 1; rewrite length_firstn; unfold m, len in *; lia).
  split; [|split; [|split]].
  - unfold padded at 1. rewrite ISO_10126_unpad_last. fold padded.
    rewrite <- (firstn_skipn m padded) at 1. rewrite <- Hout at 1.
    now rewrite slice_prefix.
  - symmetry. apply firstn_skipn.
  - unfold len at 1. rewrite length_skipn. unfold m, len in *. lia.
  - exact Hout.
Qed.

Lemma ISO_10126_unpad_removes_amount_at_2 :
  exists out removed,
    ISO_10126 ([x61; x62; x17] ++ [x02]) UNPAD None quiet = (quiet, inr out) /\
    [x61; x62; x17] ++ [x02] = out ++ removed /\
    len removed = int_of_byte x02 /\
    len out = len ([x61; x62; x17] ++ [x02]) - int_of_byte x02.
Proof.
  apply (ISO_10126_unpad_removes_amount [x61; x62; x17] x02 quiet).
  vm_compute. discriminate.
Defined.

(** The last byte of [61 62 04] reads as 4, more than the three bytes there
    are: the stop index wraps around and only one byte is removed. *)
Lemma ISO_10126_unpad_amount_beyond_length :
  int_of_byte x04 = 4 /\
  ISO_10126 [x61; x62; x04] UNPAD None quiet = (quiet, inr [x61; x62]) /\
  len [x61; x62] <> len [x61; x62; x04] - int_of_byte x04.
Proof. split; [reflexivity|]. split; [reflexivity|]. vm_compute. discriminate. Qed.

(** ** The bytes PKCS7 appends *)

(** C7, as the code has it: with [amount = n - len(d) mod n], which lies in
    [1 .. n], PKCS7 pad returns [d] followed by exactly [amount] bytes each
    holding [amount], provided [amount] fits in a byte; the empty sequence
    padded to block size 4 is [04 04 04 04]. *)
Theorem PKCS7_pad_layout (d : bytes) (n : Z) (w : world) :
  1 <= n ->
  1 <= padding_amount d n <= n /\
  (padding_amount d n <= 255 ->
   exists pad,
     PKCS7 d PAD (Some n) w = (w, inr (d ++ pad)) /\
     len pad = padding_amount d n /\
     Forall (fun x => int_of_byte x = padding_amount d n) pad) /\
  PKCS7 [] PAD (Some 4) w = (w, inr [x04; x04; x04; x04]).
Proof.
  intros Hn. pose proof (padding_amount_range d n Hn) as Ha.
  split; [exact Ha|]. split; [|reflexivity].
  intros Hfit.
  exists (repeat (byte_holding (padding_amount d n))
            (Z.to_nat (padding_amount d n))).
  split; [now apply PKCS7_pad|]. split.
  - rewrite len_repeat. lia.
  - apply Forall_forall. intros x Hin. apply repeat_spec in Hin. subst x.
    now apply byte_holding_amount.
Qed.

Lemma PKCS7_pad_layout_at_16 :
  exists pad,
    PKCS7 [x31; x32; x33; x34; x35; x36; x37; x38] PAD (Some 16) quiet
      = (quiet, inr ([x31; x32; x33; x34; x35; x36; x37; x38] ++ pad)) /\
    len pad = padding_amount [x31; x32; x33; x34; x35; x36; x37; x38] 16 /\
    Forall (fun x => int_of_byte x
                     = padding_amount [x31; x32; x33; x34; x35; x36; x37; x38] 16)
      pad.
Proof.
  destruct (PKCS7_pad_layout [x31; x32; x33; x34; x35; x36; x37; x38] 16 quiet
              ltac:(lia)) as (_ & H & _).
  apply H. vm_compute. discriminate.
Defined.

(** With block size 300 and one byte of data the amount is 299, which no
    byte holds: PKCS7 pad raises and returns no padded data. *)
Lemma PKCS7_pad_block_300 :
  padding_amount [x61] 300 = 299 /\
  PKCS7 [x61] PAD (Some 300) quiet
    = (quiet, inl (ValueError "byte must be in range(0, 256)")) /\
  ~ (exists pad, returns (PKCS7 [x61] PAD (Some 300)) quiet ([x61] ++ pad)).
Proof.
  assert (H : PKCS7 [x61] PAD (Some 300) quiet
              = (quiet, inl (ValueError "byte must be in range(0, 256)")))
    by (apply PKCS7_pad_overflow; vm_compute; easy).
  split; [reflexivity|]. split; [exact H|].
  intros (pad & Hp). unfold returns in Hp. rewrite H in Hp. discriminate.
Qed.

(** ** Further properties of the padding schemes *)

(** *** Dispatch *)

(** A direction that is neither [PAD] nor [UNPAD] makes every scheme raise
    [ValueError], whatever the data and whether or not a length is given;
    nothing is printed and no random byte drawn. *)
Theorem direction_not_recognized
  (d : bytes) (direction : Z) (length : option Z) (w : world) :
  direction <> PAD -> direction <> UNPAD ->
  bit_padding d direction length w
    = (w, inl (ValueError "Supply a valid direction")) /\
  zeros_padding d direction length w
    = (w, inl (ValueError "Supply a valid direction")) /\
  PKCS7 d direction length w
    = (w, inl (ValueError "Supply a valid direction")) /\
  ANSI_X923 d direction length w
    = (w, inl (ValueError "Supply a valid direction")) /\
  ISO_10126 d direction length w
    = (w, inl (ValueError "Supply a valid direction")).
Proof.
  intros Hp Hu. apply Z.eqb_neq in Hp, Hu.
  unfold bit_padding, zeros_padding, PKCS7, ANSI_X923, ISO_10126.
  rewrite Hp, Hu. repeat split.
Qed.

Lemma direction_not_recognized_at_2 :
  PKCS7 [x31] 2 None quiet
    = (quiet, inl (ValueError "Supply a valid direction")) /\
  ISO_10126 [x31] 2 (Some 16) quiet
    = (quiet, inl (ValueError "Supply a valid direction")).
Proof.
  destruct (direction_not_recognized [x31] 2 None quiet) as (_ & _ & Hp & _);
    [discriminate|discriminate|].
  destruct (direction_not_recognized [x31] 2 (Some 16) quiet)
    as (_ & _ & _ & _ & Hi); [discriminate|discriminate|].
  split; [exact Hp|exact Hi].
Defined.

(** *** Padding never touches the data *)

(** Whatever the block size, zero and negative ones included, a pad call
    that returns gives back the data followed by the padding: the data bytes
    are never changed, dropped or reordered. *)
Theorem pad_extends_data (d p : bytes) (n : Z) (w w' : world) :
  bit_padding d PAD (Some n) w = (w', inr p) \/
  zeros_padding d PAD (Some n) w = (w', inr p) \/
  PKCS7 d PAD (Some n) w = (w', inr p) \/
  ANSI_X923 d PAD (Some n) w = (w', inr p) \/
  ISO_10126 d PAD (Some n) w = (w', inr p) ->
  exists padding, p = d ++ padding.
Proof.
  unfold bit_padding, zeros_padding, PKCS7, ANSI_X923, ISO_10126.
  change (PAD =? PAD) with true. cbv iota.
  unfold __bit_padding, __zeros_padding, __PKCS7, __ANSI_X923, __ISO_10126.
  destruct (Z.eq_dec n 0) as [->|Hn].
  - rewrite !(bind_raises _ _ w w ZeroDivisionError) by apply py_mod_zero.
    intros [H|[H|[H|[H|H]]]]; discriminate.
  - rewrite !(bind_returns (py_mod (len d) n) _ w w (len d mod n))
      by (apply py_mod_nonzero; exact Hn).
    rewrite (bind_returns (py_mod (n - len d) n) _ w w ((n - len d) mod n))
      by (apply py_mod_nonzero; exact Hn).
    intros [H|[H|[H|[H|H]]]].
    + unfold bind in H.
      destruct (bytes_repeat _ _ w) as [w1 [e|z]]; [discriminate|].
      injection H as _ <-. eauto.
    + unfold bind in H.
      destruct (bytes_repeat _ _ w) as [w1 [e|z]]; [discriminate|].
      injection H as _ <-. eauto.
    + unfold bind in H.
      destruct (bytearray [n - len d mod n] w) as [w1 [e|b]]; [discriminate|].
      destruct (bytes_repeat _ _ w1) as [w2 [e|z]]; [discriminate|].
      injection H as _ <-. eauto.
    + unfold bind in H.
      destruct (bytearray [n - len d mod n] w) as [w1 [e|b]]; [discriminate|].
      destruct (bytes_repeat _ _ w1) as [w2 [e|z]]; [discriminate|].
      injection H as _ <-. eauto.
    + erewrite bind_returns in H by apply random_bytes_draws.
      unfold bind in H.
      destruct (bytearray [n - len d mod n] _) as [w1 [e|b]]; [discriminate|].
      injection H as _ <-. eauto.
Qed.

Lemma pad_extends_data_at_minus_4 :
  exists padding, [x61; x62; x63; x80] = [x61; x62; x63] ++ padding.
Proof.
  apply (pad_extends_data [x61; x62; x63] [x61; x62; x63; x80] (-4) quiet quiet).
  left. reflexivity.
Defined.

(** *** Unpadding only ever cuts *)

Lemma rstrip_zeros_cut (b : bytes) :
  exists k, b = rstrip b [x00] ++ repeat x00 k.
Proof.
  induction b as [|x t [k IH]]; [now exists 0%nat|].
  cbn [rstrip]. destruct (rstrip t [x00]) as [|y r] eqn:E.
  - destruct (existsb (Byte.eqb x) [x00]) eqn:Ex.
    + apply in_zero_set in Ex. subst x. exists (S k). simpl in *. now rewrite <- IH.
    + exists k. simpl in *. now rewrite <- IH.
  - exists k. simpl in *. now rewrite <- IH.
Qed.

Lemma slice_from_start_cut (b : bytes) (stop : option Z) :
  exists rest, b = slice b None stop ++ rest.
Proof.
  unfold slice. simpl skipn. eexists. symmetry. apply firstn_skipn.
Qed.

Lemma slice_from_zero_cut (b : bytes) (stop : Z) :
  exists rest, b = slice b (Some 0) (Some stop) ++ rest.
Proof.
  unfold slice, clamp_index. change (0 <? 0) with false. cbv iota.
  pose proof (len_nonneg b).
  replace (Z.to_nat (Z.min 0 (len b))) with 0%nat by lia.
  simpl skipn. eexists. symmetry. apply firstn_skipn.
Qed.

(** Whenever an unpad call returns, what it returns is the input with some
    bytes cut off its end, possibly none: no scheme changes a byte or adds
    one. *)
Theorem unpad_cuts_a_suffix (padded out : bytes) (w w' : world) :
  bit_padding padded UNPAD None w = (w', inr out) \/
  zeros_padding padded UNPAD None w = (w', inr out) \/
  PKCS7 padded UNPAD None w = (w', inr out) \/
  ANSI_X923 padded UNPAD None w = (w', inr out) \/
  ISO_10126 padded UNPAD None w = (w', inr out) ->
  exists cut, padded = out ++ cut.
Proof.
  intros [H|[H|[H|[H|H]]]].
  - unfold bit_padding, __bit_padding_unpad in H.
    change (UNPAD =? PAD) with false in H.
    change (UNPAD =? UNPAD) with true in H. cbv iota in H.
    destruct (bytes_eqb _ _); injection H as _ <-.
    + destruct (rstrip_zeros_cut padded) as [k Hk].
      destruct (slice_from_start_cut (rstrip padded [x00]) (Some (-1)))
        as [rest Hrest].
      exists (rest ++ repeat x00 k). rewrite app_assoc, <- Hrest. exact Hk.
    + exists []. now rewrite app_nil_r.
  - injection H as _ <-. destruct (rstrip_zeros_cut padded) as [k Hk]. eauto.
  - induction padded as [|x d _] using rev_ind; [discriminate|].
    rewrite PKCS7_unpad_branches in H.
    destruct (endswith _ _); injection H as _ <-.
    + apply slice_from_start_cut.
    + exists []. now rewrite app_nil_r.
  - induction padded as [|x d _] using rev_ind; [discriminate|].
    rewrite ANSI_X923_unpad_branches in H.
    destruct (_ =? _); [|discriminate]. injection H as _ <-.
    apply slice_from_start_cut.
  - induction padded as [|x d _] using rev_ind; [discriminate|].
    rewrite ISO_10126_unpad_last in H. injection H as _ <-.
    apply slice_from_zero_cut.
Qed.

Lemma unpad_cuts_a_suffix_at_wrap :
  exists cut, [x61; x62; x04] = [x61; x62] ++ cut.
Proof.
  apply (unpad_cuts_a_suffix [x61; x62; x04] [x61; x62] quiet quiet).
  do 4 right. reflexivity.
Defined.

(** *** Bit padding *)

(** For every block size [n >= 1] bit padding appends the marker byte [80]
    and then [n - len(d) mod n - 1] zero bytes, nothing else. *)
Theorem bit_padding_layout (d : bytes) (n : Z) (w : world) :
  1 <= n ->
  exists zeros,
    bit_padding d PAD (Some n) w = (w, inr (d ++ [x80] ++ zeros)) /\
    len zeros = padding_amount d n - 1 /\
    Forall (fun x => x = x00) zeros.
Proof.
  intros Hn. pose proof (padding_amount_range d n Hn).
  exists (repeat x00 (Z.to_nat (padding_amount d n - 1))).
  split; [now apply bit_padding_pad|]. split.
  - rewrite len_repeat. lia.
  - apply Forall_forall. intros x Hin. now apply repeat_spec in Hin.
Qed.

Lemma bit_padding_layout_at_8 :
  exists zeros,
    bit_padding [x74; x65; x73; x74] PAD (Some 8) quiet
      = (quiet, inr ([x74; x65; x73; x74] ++ [x80] ++ zeros)) /\
    len zeros = padding_amount [x74; x65; x73; x74] 8 - 1 /\
    Forall (fun x => x = x00) zeros.
Proof. apply (bit_padding_layout [x74; x65; x73; x74] 8 quiet). lia. Defined.

Lemma slice_last_is (b : bytes) (x : byte) :
  slice b (Some (-1)) None = [x] -> exists d, b = d ++ [x].
Proof.
  induction b as [|y d _] using rev_ind; [discriminate|].
  rewrite slice_last_byte. intros [= ->]. now exists d.
Qed.

(** Bit padding unpad on an input that is not some data, the marker byte
    [80] and then only zero bytes returns the input as it is: without a
    marker, trailing zero bytes are kept. *)
Theorem bit_padding_unpad_no_marker (padded : bytes) (w : world) :
  (forall d k, padded <> d ++ [x80] ++ repeat x00 k) ->
  bit_padding padded UNPAD None w = (w, inr padded).
Proof.
  intros Hno. unfold bit_padding, __bit_padding_unpad.
  change (UNPAD =? PAD) with false. change (UNPAD =? UNPAD) with true.
  cbv iota. destruct (bytes_eqb _ _) eqn:E; [|reflexivity].
  apply bytes_eqb_true, slice_last_is in E. destruct E as [d Hd].
  destruct (rstrip_zeros_cut padded) as [k Hk]. rewrite Hd in Hk.
  exfalso. apply (Hno d k). now rewrite app_assoc.
Qed.

Lemma no_marker_in_letters_and_zeros (d : bytes) (k : nat) :
  [x61; x62; x00; x00] <> d ++ [x80] ++ repeat x00 k.
Proof.
  intros H. assert (Hin : In x80 [x61; x62; x00; x00])
    by (rewrite H; apply in_or_app; right; now left).
  simpl in Hin. repeat (destruct Hin as [Hin|Hin]; [discriminate|]).
  exact Hin.
Qed.

Lemma bit_padding_unpad_no_marker_at_zeros :
  bit_padding [x61; x62; x00; x00] UNPAD None quiet
    = (quiet, inr [x61; x62; x00; x00]).
Proof.
  apply (bit_padding_unpad_no_marker [x61; x62; x00; x00] quiet).
  exact no_marker_in_letters_and_zeros.
Defined.

(** *** Zero padding *)

(** For every block size [n >= 1] zero padding appends fewer than [n] zero
    bytes, none exactly when the length is already a multiple of [n]; padding
    what is already padded changes nothing. *)
Theorem zeros_padding_layout (d : bytes) (n : Z) (w : world) :
  1 <= n ->
  exists k,
    zeros_padding d PAD (Some n) w = (w, inr (d ++ repeat x00 k)) /\
    0 <= Z.of_nat k < n /\
    (k = 0%nat <-> len d mod n = 0) /\
    zeros_padding (d ++ repeat x00 k) PAD (Some n) w
      = (w, inr (d ++ repeat x00 k)).
Proof.
  intros Hn. exists (Z.to_nat ((n - len d) mod n)).
  pose proof (Z.mod_pos_bound (n - len d) n ltac:(lia)) as Hb.
  pose proof (zeros_pad_length_aligns d n Hn) as Hal.
  split; [now apply zeros_padding_pad|]. split; [lia|]. split.
  - split.
    + intros Hk. assert (H0 : (n - len d) mod n = 0) by lia.
      rewrite H0, Z.add_0_r in Hal. exact Hal.
    + intros H0. rewrite zeros_pad_nothing_when_aligned by assumption.
      reflexivity.
  - rewrite zeros_padding_pad by exact Hn.
    rewrite len_app, len_repeat, Z2Nat.id by lia.
    rewrite (Zminus_mod n (len d + (n - len d) mod n) n), Hal.
    rewrite Z.mod_same, Z.mod_0_l by lia.
    simpl. now rewrite app_nil_r.
Qed.

Lemma zeros_padding_layout_at_16 :
  exists k,
    zeros_padding [x31; x32; x33] PAD (Some 16) quiet
      = (quiet, inr ([x31; x32; x33] ++ repeat x00 k)) /\
    0 <= Z.of_nat k < 16 /\
    (k = 0%nat <-> len [x31; x32; x33] mod 16 = 0) /\
    zeros_padding ([x31; x32; x33] ++ repeat x00 k) PAD (Some 16) quiet
      = (quiet, inr ([x31; x32; x33] ++ repeat x00 k)).
Proof. apply (zeros_padding_layout [x31; x32; x33] 16 quiet). lia. Defined.

(** *** Amounts that do not fit in a byte *)

(** For a block size [n >= 1] whose padding amount exceeds 255, the pad
    direction of PKCS7, ANSI X9.23 and ISO 10126 raises [ValueError] from
    [bytearray]; ISO 10126 has by then drawn its [amount - 1] filler bytes
    from the random source. *)
Theorem pad_amount_beyond_byte (d : bytes) (n : Z) (w : world) :
  1 <= n -> 255 < padding_amount d n ->
  PKCS7 d PAD (Some n) w
    = (w, inl (ValueError "byte must be in range(0, 256)")) /\
  ANSI_X923 d PAD (Some n) w
    = (w, inl (ValueError "byte must be in range(0, 256)")) /\
  ISO_10126 d PAD (Some n) w
    = (advance w (Z.to_nat (padding_amount d n - 1)),
       inl (ValueError "byte must be in range(0, 256)")).
Proof.
  intros Hn Hbig. split; [|split].
  - now apply PKCS7_pad_overflow.
  - now apply ANSI_X923_pad_overflow.
  - now apply ISO_10126_pad_overflow.
Qed.

Lemma pad_amount_beyond_byte_at_512 :
  PKCS7 [x61] PAD (Some 512) quiet
    = (quiet, inl (ValueError "byte must be in range(0, 256)")) /\
  ANSI_X923 [x61] PAD (Some 512) quiet
    = (quiet, inl (ValueError "byte must be in range(0, 256)")) /\
  ISO_10126 [x61] PAD (Some 512) quiet
    = (advance quiet (Z.to_nat (padding_amount [x61] 512 - 1)),
       inl (ValueError "byte must be in range(0, 256)")).
Proof.
  apply (pad_amount_beyond_byte [x61] 512 quiet); [lia|].
  vm_compute. reflexivity.
Defined.

(** *** ANSI X9.23 and ISO 10126 layouts *)

(** For a block size [n >= 1] whose padding amount fits in a byte,
    ANSI X9.23 appends [amount - 1] zero bytes and then one byte holding
    [amount]. *)
Theorem ANSI_X923_layout (d : bytes) (n : Z) (w : world) :
  1 <= n -> padding_amount d n <= 255 ->
  exists zeros trailer,
    ANSI_X923 d PAD (Some n) w = (w, inr (d ++ zeros ++ [trailer])) /\
    len zeros = padding_amount d n - 1 /\
    Forall (fun x => x = x00) zeros /\
    int_of_byte trailer = padding_amount d n.
Proof.
  intros Hn Hfit. pose proof (padding_amount_range d n Hn).
  exists (repeat x00 (Z.to_nat (padding_amount d n - 1))),
         (byte_holding (padding_amount d n)).
  split; [now apply ANSI_X923_pad|]. split; [rewrite len_repeat; lia|].
  split; [|now apply byte_holding_amount].
  apply Forall_forall. intros x Hin. now apply repeat_spec in Hin.
Qed.

Lemma ANSI_X923_layout_at_16 :
  exists zeros trailer,
    ANSI_X923 [x31; x32; x33] PAD (Some 16) quiet
      = (quiet, inr ([x31; x32; x33] ++ zeros ++ [trailer])) /\
    len zeros = padding_amount [x31; x32; x33] 16 - 1 /\
    Forall (fun x => x = x00) zeros /\
    int_of_byte trailer = padding_amount [x31; x32; x33] 16.
Proof.
  apply (ANSI_X923_layout [x31; x32; x33] 16 quiet); [lia|].
  vm_compute. discriminate.
Defined.

(** For a block size [n >= 1] whose padding amount fits in a byte,
    ISO 10126 appends the next [amount - 1] bytes of the random source, in the
    order drawn, and then one byte holding [amount]; the random source is left
    [amount - 1] draws further and nothing is printed. *)
Theorem ISO_10126_layout (d : bytes) (n : Z) (w : world) :
  1 <= n -> padding_amount d n <= 255 ->
  exists trailer,
    ISO_10126 d PAD (Some n) w
      = (advance w (Z.to_nat (padding_amount d n - 1)),
         inr (d ++ draws w (Z.to_nat (padding_amount d n - 1)) ++ [trailer])) /\
    int_of_byte trailer = padding_amount d n /\
    len (draws w (Z.to_nat (padding_amount d n - 1))) = padding_amount d n - 1.
Proof.
  intros Hn Hfit. pose proof (padding_amount_range d n Hn).
  exists (byte_holding (padding_amount d n)).
  split; [now apply ISO_10126_pad|].
  split; [now apply byte_holding_amount|]. rewrite len_draws. lia.
Qed.

Lemma ISO_10126_layout_at_4 :
  exists trailer,
    ISO_10126 [x31] PAD (Some 4) quiet
      = (advance quiet (Z.to_nat (padding_amount [x31] 4 - 1)),
         inr ([x31] ++ draws quiet (Z.to_nat (padding_amount [x31] 4 - 1))
                ++ [trailer])) /\
    int_of_byte trailer = padding_amount [x31] 4 /\
    len (draws quiet (Z.to_nat (padding_amount [x31] 4 - 1)))
      = padding_amount [x31] 4 - 1.
Proof.
  apply (ISO_10126_layout [x31] 4 quiet); [lia|]. vm_compute. discriminate.
Defined.

(** *** When unpad accepts *)

(** On a non-empty input PKCS7 unpad never raises. When the last byte is at
    least 1 and the input ends with the pattern it declares, unpad returns
    what precedes the pattern and prints nothing. *)
Theorem PKCS7_unpad_accepts (d : bytes) (x : byte) (w : world) :
  ~ raises (PKCS7 (d ++ [x]) UNPAD None) w /\
  (1 <= int_of_byte x ->
   forall data, d ++ [x] = data ++ PKCS7_pattern x ->
   PKCS7 (d ++ [x]) UNPAD None w = (w, inr data)).
Proof.
  split.
  - intros [e He]. rewrite PKCS7_unpad_branches in He.
    destruct (endswith _ _); discriminate.
  - intros Hx data Hd. rewrite Hd. now apply PKCS7_unpad_pattern.
Qed.

Lemma PKCS7_unpad_accepts_at_2 :
  PKCS7 ([x61; x02] ++ [x02]) UNPAD None quiet = (quiet, inr [x61]).
Proof.
  destruct (PKCS7_unpad_accepts [x61; x02] x02 quiet) as [_ H].
  apply H; [vm_compute; discriminate|reflexivity].
Defined.

(** ANSI X9.23 unpad returns on a non-empty input exactly when its last byte
    is at least 1 and the input ends with the pattern that byte declares; it
    then returns what precedes the pattern. A last byte of 0 is never
    accepted. *)
Theorem ANSI_X923_unpad_accepts (d : bytes) (x : byte) (w : world) :
  ((exists out, returns (ANSI_X923 (d ++ [x]) UNPAD None) w out) <->
   1 <= int_of_byte x /\ has_suffix (d ++ [x]) (ANSI_X923_pattern x)) /\
  (forall data, 1 <= int_of_byte x -> d ++ [x] = data ++ ANSI_X923_pattern x ->
   ANSI_X923 (d ++ [x]) UNPAD None w = (w, inr data)) /\
  (int_of_byte x = 0 ->
   ANSI_X923 (d ++ [x]) UNPAD None w = (w, inl TypeError)).
Proof.
  assert (Hacc : forall data, 1 <= int_of_byte x ->
            d ++ [x] = data ++ ANSI_X923_pattern x ->
            ANSI_X923 (d ++ [x]) UNPAD None w = (w, inr data)).
  { intros data Hx Hd. rewrite Hd. now apply ANSI_X923_unpad_pattern. }
  split; [|split; [exact Hacc|]].
  - split.
    + intros [out Hout]. unfold returns in Hout.
      rewrite ANSI_X923_unpad_branches in Hout.
      destruct (_ =? _) eqn:E; [|discriminate]. apply Z.eqb_eq in E.
      split; [lia|now apply ANSI_X923_check_passes].
    + intros [Hx [data Hd]]. exists data. unfold returns.
      now rewrite (Hacc data Hx Hd).
  - intros H0. rewrite ANSI_X923_unpad_branches, H0.
    destruct (_ =? _) eqn:E; [|reflexivity]. apply Z.eqb_eq in E. lia.
Qed.

Lemma ANSI_X923_unpad_accepts_at_3 :
  ANSI_X923 ([x61; x00; x00] ++ [x03]) UNPAD None quiet = (quiet, inr [x61]) /\
  ANSI_X923 ([x61] ++ [x00]) UNPAD None quiet = (quiet, inl TypeError).
Proof.
  split.
  - destruct (ANSI_X923_unpad_accepts [x61; x00; x00] x03 quiet)
      as (_ & H & _).
    apply H; [vm_compute; discriminate|reflexivity].
  - destruct (ANSI_X923_unpad_accepts [x61] x00 quiet) as (_ & _ & H).
    apply H. reflexivity.
Defined.

(** *** ISO 10126 unpad beyond the length *)

(** When the last byte of a non-empty input, read as [amount], exceeds the
    input's length, the stop index of the slice is negative and counts from
    the end: ISO 10126 unpad keeps the first [2 * len - amount] bytes, or
    none when that is not positive. *)
Theorem ISO_10126_unpad_wraps (d : bytes) (x : byte) (w : world) :
  len (d ++ [x]) < int_of_byte x ->
  ISO_10126 (d ++ [x]) UNPAD None w =
  (w, inr (firstn (Z.to_nat (2 * len (d ++ [x]) - int_of_byte x)) (d ++ [x]))).
Proof.
  intros Hbig. rewrite ISO_10126_unpad_last.
  pose proof (len_nonneg (d ++ [x])) as Hl. set (padded := d ++ [x]) in *.
  unfold slice, clamp_index. change (0 <? 0) with false. cbv iota.
  destruct (len padded - int_of_byte x <? 0) eqn:E;
    [|apply Z.ltb_ge in E; lia].
  replace (Z.to_nat (Z.min 0 (len padded))) with 0%nat by lia.
  simpl skipn.
  now replace (Z.to_nat (Z.max 0 (len padded + (len padded - int_of_byte x))
                         - Z.min 0 (len padded)))
    with (Z.to_nat (2 * len padded - int_of_byte x)) by lia.
Qed.

Lemma ISO_10126_unpad_wraps_at_5 :
  ISO_10126 ([x61; x62; x63] ++ [x05]) UNPAD None quiet =
  (quiet,
   inr (firstn (Z.to_nat (2 * len ([x61; x62; x63] ++ [x05]) - int_of_byte x05))
          ([x61; x62; x63] ++ [x05]))).
Proof.
  apply (ISO_10126_unpad_wraps [x61; x62; x63] x05 quiet).
  vm_compute. reflexivity.
Defined.

(** *** Unpadding with another scheme *)

(** ISO 10126 unpad reads only the trailer byte, so it also undoes PKCS7 and
    ANSI X9.23 padding: for a block size [n >= 1] whose padding amount fits
    in a byte it gives the data back from either. *)
Theorem ISO_10126_unpads_PKCS7_and_ANSI_X923 (d : bytes) (n : Z) (w : world) :
  1 <= n -> padding_amount d n <= 255 ->
  (padded <- PKCS7 d PAD (Some n) ;; ISO_10126 padded UNPAD None) w
    = (w, inr d) /\
  (padded <- ANSI_X923 d PAD (Some n) ;; ISO_10126 padded UNPAD None) w
    = (w, inr d).
Proof.
  intros Hn Hfit. pose proof (padding_amount_range d n Hn) as Ha.
  pose proof (byte_holding_amount d n Hn Hfit) as Hb. split.
  - erewrite bind_returns by (now apply PKCS7_pad).
    remember (Z.to_nat (padding_amount d n)) as k eqn:Hk.
    destruct k as [|k]; [lia|]. rewrite repeat_snoc.
    apply ISO_10126_unpad_filler. rewrite Hb, len_repeat. lia.
  - erewrite bind_returns by (now apply ANSI_X923_pad).
    apply ISO_10126_unpad_filler. rewrite Hb, len_repeat. lia.
Qed.

Lemma ISO_10126_unpads_PKCS7_and_ANSI_X923_at_8 :
  (padded <- PKCS7 [x61; x62; x63] PAD (Some 8) ;;
   ISO_10126 padded UNPAD None) quiet = (quiet, inr [x61; x62; x63]) /\
  (padded <- ANSI_X923 [x61; x62; x63] PAD (Some 8) ;;
   ISO_10126 padded UNPAD None) quiet = (quiet, inr [x61; x62; x63]).
Proof.
  apply (ISO_10126_unpads_PKCS7_and_ANSI_X923 [x61; x62; x63] 8 quiet); [lia|].
  vm_compute. discriminate.
Defined.

(** ** CryptoPlus.Util.util: conversions between numbers and strings *)

Section Conversions.

Import Util.

Lemma len_snoc (b : bytes) (x : byte) : len (b ++ [x]) = len b + 1.
Proof. now rewrite len_app. Qed.

Lemma pow256_succ (k : Z) : 0 <= k -> 256 ^ (k + 1) = 256 * 256 ^ k.
Proof. intros Hk. now rewrite Z.pow_add_r, Z.mul_comm by lia. Qed.

Lemma pow256_pos (k : Z) : 0 <= k -> 0 < 256 ^ k.
Proof. intros Hk. apply Z.pow_pos_nonneg; lia. Qed.

Lemma from_bytes_snoc (b : bytes) (x : byte) :
  from_bytes (b ++ [x]) = from_bytes b * 256 + int_of_byte x.
Proof. unfold from_bytes. now rewrite fold_left_app. Qed.

Lemma from_bytes_range (b : bytes) : 0 <= from_bytes b < 256 ^ len b.
Proof.
  induction b as [|x b IH] using rev_ind; [change (0 <= 0 < 1); lia|].
  rewrite from_bytes_snoc, len_snoc, pow256_succ by apply len_nonneg.
  pose proof (int_of_byte_range x). lia.
Qed.

Lemma from_bytes_app (a b : bytes) :
  from_bytes (a ++ b) = from_bytes a * 256 ^ len b + from_bytes b.
Proof.
  induction b as [|x b IH] using rev_ind.
  - rewrite app_nil_r. change (len []) with 0. change (from_bytes []) with 0.
    rewrite Z.pow_0_r. lia.
  - rewrite app_assoc, !from_bytes_snoc, IH, len_snoc.
    rewrite pow256_succ by apply len_nonneg. lia.
Qed.

Lemma from_bytes_zeros (k : nat) : from_bytes (repeat x00 k) = 0.
Proof.
  induction k as [|k IH]; [reflexivity|].
  rewrite repeat_snoc, from_bytes_snoc, IH. reflexivity.
Qed.

Lemma length_big_endian (k : nat) (i : Z) : List.length (big_endian k i) = k.
Proof.
  revert i. induction k as [|k IH]; intros i; [reflexivity|].
  cbn [big_endian]. rewrite length_app, IH. simpl. lia.
Qed.

Lemma from_bytes_big_endian (k : nat) (i : Z) :
  0 <= i < 256 ^ Z.of_nat k -> from_bytes (big_endian k i) = i.
Proof.
  revert i. induction k as [|k IH]; intros i Hi.
  - simpl in *. change (from_bytes []) with 0. lia.
  - cbn [big_endian]. rewrite from_bytes_snoc.
    replace (Z.of_nat (S k)) with (Z.of_nat k + 1) in Hi by lia.
    rewrite pow256_succ in Hi by lia.
    pose proof (Z.mod_pos_bound i 256 ltac:(lia)) as Hm.
    rewrite IH, int_of_byte_holding by
      first [lia|split; [apply Z.div_pos; lia
                        |apply Z.div_lt_upper_bound; lia]].
    pose proof (Z.div_mod i 256 ltac:(lia)). lia.
Qed.

Lemma big_endian_from_bytes (b : bytes) :
  big_endian (List.length b) (from_bytes b) = b.
Proof.
  induction b as [|x b IH] using rev_ind; [reflexivity|].
  rewrite length_app, Nat.add_1_r, from_bytes_snoc. cbn [big_endian].
  pose proof (int_of_byte_range x) as Hx.
  rewrite Z.div_add_l, Z.div_small, Z.add_0_r by lia. rewrite IH.
  rewrite Z.add_comm, Z.mod_add, Z.mod_small by lia.
  now rewrite byte_holding_int.
Qed.

Lemma to_bytes_fits (i n : Z) :
  0 <= n -> 0 <= i < 256 ^ n ->
  to_bytes i n = inr (big_endian (Z.to_nat n) i).
Proof.
  intros Hn Hi. unfold to_bytes. assert (H63 : - 2 ^ 63 < 0) by reflexivity.
  destruct (n <? - 2 ^ 63) eqn:E0; [apply Z.ltb_lt in E0; lia|].
  destruct (n <? 0) eqn:E1; [apply Z.ltb_lt in E1; lia|].
  destruct (i <? 0) eqn:E2; [apply Z.ltb_lt in E2; lia|].
  destruct (256 ^ n <=? i) eqn:E3; [apply Z.leb_le in E3; lia|].
  reflexivity.
Qed.

Lemma to_bytes_too_big (i n : Z) :
  0 <= n -> 256 ^ n <= i ->
  to_bytes i n = inl (OverflowError "int too big to convert").
Proof.
  intros Hn Hi. pose proof (pow256_pos n Hn). unfold to_bytes.
  assert (H63 : - 2 ^ 63 < 0) by reflexivity.
  destruct (n <? - 2 ^ 63) eqn:E0; [apply Z.ltb_lt in E0; lia|].
  destruct (n <? 0) eqn:E1; [apply Z.ltb_lt in E1; lia|].
  destruct (i <? 0) eqn:E2; [apply Z.ltb_lt in E2; lia|].
  destruct (256 ^ n <=? i) eqn:E3; [reflexivity|apply Z.leb_gt in E3; lia].
Qed.

Lemma pow256_as_pow2 (k : Z) : 0 <= k -> 256 ^ k = 2 ^ (8 * k).
Proof. intros Hk. now rewrite Z.pow_mul_r by lia. Qed.

Lemma bit_length_nonneg (i : Z) : 0 <= bit_length i.
Proof.
  unfold bit_length. destruct (i =? 0); [lia|].
  pose proof (Z.log2_nonneg (Z.abs i)). lia.
Qed.

(** The width [number2string] asks for is the least that holds [i]. *)
Lemma number2string_width (i : Z) :
  0 <= i ->
  let width := (7 + bit_length i) / 8 in
  0 <= width /\ i < 256 ^ width /\ (0 < i -> 256 ^ (width - 1) <= i).
Proof.
  intros Hi. cbv zeta. unfold bit_length.
  destruct (i =? 0) eqn:E.
  - apply Z.eqb_eq in E. subst i. change ((7 + 0) / 8) with 0.
    change (256 ^ 0) with 1. lia.
  - apply Z.eqb_neq in E. rewrite Z.abs_eq by lia.
    pose proof (Z.log2_spec i ltac:(lia)) as [Hlo Hhi].
    pose proof (Z.log2_nonneg i) as Hl.
    set (width := (7 + (Z.log2 i + 1)) / 8).
    assert (Hw : 1 <= width)
      by (unfold width; Z.div_mod_to_equations; lia).
    assert (Hup : Z.log2 i + 1 <= 8 * width)
      by (unfold width; Z.div_mod_to_equations; lia).
    assert (Hdn : 8 * (width - 1) <= Z.log2 i)
      by (unfold width; Z.div_mod_to_equations; lia).
    split; [lia|]. split.
    + rewrite pow256_as_pow2 by lia.
      apply Z.lt_le_trans with (2 ^ Z.succ (Z.log2 i)); [exact Hhi|].
      apply Z.pow_le_mono_r; lia.
    + intros _. rewrite pow256_as_pow2 by lia.
      apply Z.le_trans with (2 ^ Z.log2 i); [|exact Hlo].
      apply Z.pow_le_mono_r; lia.
Qed.

Lemma number2string_nonneg (i : Z) :
  0 <= i ->
  number2string i
  = inr (big_endian (Z.to_nat ((7 + bit_length i) / 8)) i).
Proof.
  intros Hi. destruct (number2string_width i Hi) as (Hw & Hfit & _).
  unfold number2string. apply to_bytes_fits; lia.
Qed.

Lemma number2string_negative (i : Z) :
  i < 0 ->
  number2string i
  = inl (OverflowError "can't convert negative int to unsigned").
Proof.
  intros Hi. unfold number2string, to_bytes.
  pose proof (bit_length_nonneg i).
  assert (0 <= (7 + bit_length i) / 8) by (apply Z.div_pos; lia).
  assert (H63 : - 2 ^ 63 < 0) by reflexivity.
  destruct (_ <? - 2 ^ 63) eqn:E0; [apply Z.ltb_lt in E0; lia|].
  destruct (_ <? 0) eqn:E1; [apply Z.ltb_lt in E1; lia|].
  destruct (i <? 0) eqn:E2; [reflexivity|apply Z.ltb_ge in E2; lia].
Qed.

Lemma number2string_N_nonneg (i n : Z) :
  0 <= i -> number2string_N i n = to_bytes i n.
Proof.
  intros Hi. unfold number2string_N. now rewrite number2string_nonneg.
Qed.

End Conversions.

(** [string2number] reads its argument as a big-endian base-256 numeral:
    the value is non-negative and below [256 ^ len], a concatenation is the
    first part shifted left by the length of the second plus the second, and
    leading zero bytes do not count. *)
Theorem string2number_big_endian (a b : bytes) (k : nat) :
  0 <= Util.string2number b < 256 ^ len b /\
  Util.string2number (a ++ b)
    = Util.string2number a * 256 ^ len b + Util.string2number b /\
  Util.string2number (repeat x00 k ++ b) = Util.string2number b.
Proof.
  unfold Util.string2number. split; [apply from_bytes_range|].
  split; [apply from_bytes_app|].
  rewrite from_bytes_app, from_bytes_zeros. lia.
Qed.

(** For [i >= 0], [number2string(i)] returns the big-endian bytes of [i]:
    [string2number] gives [i] back, the length is
    [(7 + i.bit_length()) // 8], and no shorter width would do, since
    [number2string_N(i, n)] raises [OverflowError] for every smaller [n]. *)
Theorem number2string_roundtrip (i : Z) :
  0 <= i ->
  exists b,
    Util.number2string i = inr b /\
    Util.string2number b = i /\
    len b = (7 + Util.bit_length i) / 8 /\
    (forall n, 0 <= n < len b ->
       Util.number2string_N i n
       = inl (Util.OverflowError "int too big to convert")).
Proof.
  intros Hi. destruct (number2string_width i Hi) as (Hw & Hfit & Hmin).
  set (width := (7 + Util.bit_length i) / 8) in *.
  exists (Util.big_endian (Z.to_nat width) i).
  assert (Hlen : len (Util.big_endian (Z.to_nat width) i) = width)
    by (unfold len; rewrite length_big_endian; lia).
  split; [now apply number2string_nonneg|]. split; [|split; [exact Hlen|]].
  - apply from_bytes_big_endian. rewrite Z2Nat.id; lia.
  - rewrite Hlen. intros n Hn. rewrite number2string_N_nonneg by exact Hi.
    apply to_bytes_too_big; [lia|].
    assert (Hpos : 0 < i).
    { destruct (Z.eq_dec i 0) as [->|]; [|lia].
      change width with 0 in Hn. lia. }
    apply Z.le_trans with (256 ^ (width - 1)); [|now apply Hmin].
    apply Z.pow_le_mono_r; lia.
Qed.

Lemma number2string_roundtrip_at_258 :
  exists b,
    Util.number2string 258 = inr b /\
    Util.string2number b = 258 /\
    len b = (7 + Util.bit_length 258) / 8 /\
    (forall n, 0 <= n < len b ->
       Util.number2string_N 258 n
       = inl (Util.OverflowError "int too big to convert")).
Proof. apply (number2string_roundtrip 258). lia. Defined.

Lemma leading_byte_weight (x : byte) (t : bytes) :
  x <> x00 ->
  256 ^ len t <= Util.from_bytes (x :: t) < 256 ^ (len t + 1).
Proof.
  intros Hx. pose proof (from_bytes_range t) as Ht.
  pose proof (from_bytes_range (x :: t)) as Hb.
  replace (len (x :: t)) with (len t + 1) in Hb
    by (unfold len; simpl List.length; lia).
  split; [|lia].
  change (x :: t) with ([x] ++ t). rewrite from_bytes_app.
  change (Util.from_bytes [x]) with (0 * 256 + int_of_byte x).
  pose proof (int_of_byte_range x) as Hr.
  assert (int_of_byte x <> 0).
  { intros H0. apply Hx, int_of_byte_inj. rewrite H0. reflexivity. }
  pose proof (pow256_pos (len t) (len_nonneg t)). nia.
Qed.

(** [number2string(string2number(s))] is [s] without its leading zero
    bytes: for [b] that does not start with a zero byte, converting
    [k] zero bytes followed by [b] to a number and back returns [b]. *)
Theorem number2string_string2number (b : bytes) (k : nat) :
  (forall t, b <> x00 :: t) ->
  Util.number2string (Util.string2number (repeat x00 k ++ b)) = inr b.
Proof.
  intros Hlead. unfold Util.string2number.
  rewrite from_bytes_app, from_bytes_zeros, Z.mul_0_l, Z.add_0_l.
  destruct b as [|x t]; [reflexivity|].
  assert (Hx : x <> x00) by (intros ->; now apply (Hlead t)).
  pose proof (leading_byte_weight x t Hx) as [Hlo Hhi].
  pose proof (len_nonneg t) as Ht. pose proof (pow256_pos (len t) Ht) as Hp.
  set (v := Util.from_bytes (x :: t)) in *.
  destruct (number2string_width v ltac:(lia)) as (Hw & Hfit & Hmin).
  specialize (Hmin ltac:(lia)).
  set (width := (7 + Util.bit_length v) / 8) in *.
  assert (Hwidth : width = len t + 1).
  { assert (len t < width).
    { apply (Z.pow_lt_mono_r_iff 256); lia. }
    assert (width - 1 < len t + 1).
    { apply (Z.pow_lt_mono_r_iff 256); lia. }
    lia. }
  rewrite number2string_nonneg by lia. fold width. rewrite Hwidth.
  replace (Z.to_nat (len t + 1)) with (List.length (x :: t))
    by (unfold len; simpl List.length; lia).
  unfold v. now rewrite big_endian_from_bytes.
Qed.

Lemma number2string_string2number_at_zeros :
  Util.number2string (Util.string2number (repeat x00 2 ++ [x01; x00]))
  = inr [x01; x00].
Proof.
  apply (number2string_string2number [x01; x00] 2). intros t H. discriminate.
Defined.

(** A negative number is not converted: [number2string(i)] raises
    [OverflowError], and so does [number2string_N(i, n)] for every [n], a
    negative [n] included, since it calls [number2string] first. *)
Theorem number2string_negative_raises (i n : Z) :
  i < 0 ->
  Util.number2string i
    = inl (Util.OverflowError "can't convert negative int to unsigned") /\
  Util.number2string_N i n
    = inl (Util.OverflowError "can't convert negative int to unsigned").
Proof.
  intros Hi. pose proof (number2string_negative i Hi) as H.
  split; [exact H|]. unfold Util.number2string_N. now rewrite H.
Qed.

Lemma number2string_negative_raises_at_minus_1 :
  Util.number2string (-1)
    = inl (Util.OverflowError "can't convert negative int to unsigned") /\
  Util.number2string_N (-1) (-3)
    = inl (Util.OverflowError "can't convert negative int to unsigned").
Proof. apply (number2string_negative_raises (-1) (-3)). lia. Defined.

(** For [n >= 0] and [0 <= i < 256 ^ n], [number2string_N(i, n)] returns
    exactly [n] bytes whose big-endian value is [i]. *)
Theorem number2string_N_fixed_width (i n : Z) :
  0 <= n -> 0 <= i < 256 ^ n ->
  exists b,
    Util.number2string_N i n = inr b /\
    len b = n /\
    Util.string2number b = i.
Proof.
  intros Hn Hi. exists (Util.big_endian (Z.to_nat n) i).
  rewrite number2string_N_nonneg by lia.
  split; [now apply to_bytes_fits|]. split.
  - unfold len. rewrite length_big_endian. lia.
  - apply from_bytes_big_endian. rewrite Z2Nat.id; lia.
Qed.

Lemma number2string_N_fixed_width_at_4 :
  exists b,
    Util.number2string_N 258 4 = inr b /\
    len b = 4 /\
    Util.string2number b = 258.
Proof.
  apply (number2string_N_fixed_width 258 4); [lia|].
  change (256 ^ 4) with 4294967296. lia.
Defined.

(** For [i >= 0], [number2string_N(i, n)] raises [ValueError] when [n] is
    negative but not below [- 2 ^ 63], [OverflowError] when [n] is below
    [- 2 ^ 63] (it does not convert to a machine index), and [OverflowError]
    when [n >= 0] and [i] needs more than [n] bytes. *)
Theorem number2string_N_does_not_fit (i n : Z) :
  0 <= i ->
  (- 2 ^ 63 <= n < 0 ->
   Util.number2string_N i n
   = inl (Util.ValueError "length argument must be non-negative")) /\
  (n < - 2 ^ 63 ->
   Util.number2string_N i n
   = inl (Util.OverflowError
            "Python int too large to convert to C ssize_t")) /\
  (0 <= n -> 256 ^ n <= i ->
   Util.number2string_N i n
   = inl (Util.OverflowError "int too big to convert")).
Proof.
  intros Hi. rewrite number2string_N_nonneg by exact Hi.
  split; [|split].
  - intros [Hlo Hn]. unfold Util.to_bytes.
    destruct (n <? - 2 ^ 63) eqn:E0; [apply Z.ltb_lt in E0; lia|].
    apply Z.ltb_lt in Hn. now rewrite Hn.
  - intros Hn. unfold Util.to_bytes. apply Z.ltb_lt in Hn. now rewrite Hn.
  - intros Hn Hbig. now apply to_bytes_too_big.
Qed.

Lemma number2string_N_does_not_fit_at_256 :
  Util.number2string_N 256 (-1)
    = inl (Util.ValueError "length argument must be non-negative") /\
  Util.number2string_N 256 (- 2 ^ 63 - 1)
    = inl (Util.OverflowError
             "Python int too large to convert to C ssize_t") /\
  Util.number2string_N 256 1
    = inl (Util.OverflowError "int too big to convert").
Proof.
  destruct (number2string_N_does_not_fit 256 (-1) ltac:(lia)) as (Hneg & _).
  destruct (number2string_N_does_not_fit 256 (- 2 ^ 63 - 1) ltac:(lia))
    as (_ & Hidx & _).
  destruct (number2string_N_does_not_fit 256 1 ltac:(lia)) as (_ & _ & Hbig).
  split; [|split].
  - apply Hneg. split; [vm_compute; discriminate|reflexivity].
  - apply Hidx. reflexivity.
  - apply Hbig; [lia|]. change (256 ^ 1) with 256. lia.
Defined.

(** Converting a string to a number and back at the string's own length
    returns the string, leading zero bytes included. *)
Theorem number2string_N_string2number (b : bytes) :
  Util.number2string_N (Util.string2number b) (len b) = inr b.
Proof.
  pose proof (from_bytes_range b) as Hr. unfold Util.string2number.
  rewrite number2string_N_nonneg by lia.
  rewrite to_bytes_fits by (try apply len_nonneg; lia).
  unfold len. rewrite Nat2Z.id. now rewrite big_endian_from_bytes.
Qed.

(** ** CryptoPlus.Util.util: xorstring *)

Section Xor.

Import Util.

Lemma lxor_below_pow2 (p q k : Z) :
  0 <= k -> 0 <= p < 2 ^ k -> 0 <= q < 2 ^ k -> 0 <= Z.lxor p q < 2 ^ k.
Proof.
  intros Hk Hp Hq.
  assert (Hnn : 0 <= Z.lxor p q) by (apply Z.lxor_nonneg; lia).
  split; [exact Hnn|].
  destruct (Z.eq_dec (Z.lxor p q) 0) as [->|Hne]; [lia|].
  apply Z.log2_lt_pow2; [lia|].
  pose proof (Z.log2_lxor p q ltac:(lia) ltac:(lia)) as Hl.
  assert (Hkpos : 0 < k).
  { destruct (Z.eq_dec k 0) as [->|]; [|lia].
    change (2 ^ 0) with 1 in *. assert (p = 0) by lia. assert (q = 0) by lia.
    subst p q. now rewrite Z.lxor_0_r in Hne. }
  assert (Hlp : Z.log2 p < k).
  { destruct (Z.eq_dec p 0) as [->|]; [exact Hkpos|].
    apply Z.log2_lt_pow2; lia. }
  assert (Hlq : Z.log2 q < k).
  { destruct (Z.eq_dec q 0) as [->|]; [exact Hkpos|].
    apply Z.log2_lt_pow2; lia. }
  lia.
Qed.

Lemma lxor_below_pow256 (p q k : Z) :
  0 <= k -> 0 <= p < 256 ^ k -> 0 <= q < 256 ^ k ->
  0 <= Z.lxor p q < 256 ^ k.
Proof.
  intros Hk. rewrite pow256_as_pow2 by exact Hk.
  apply lxor_below_pow2. lia.
Qed.

Lemma lxor_bytes_range (x y : byte) :
  0 <= Z.lxor (int_of_byte x) (int_of_byte y) <= 255.
Proof.
  pose proof (int_of_byte_range x). pose proof (int_of_byte_range y).
  pose proof (lxor_below_pow2 (int_of_byte x) (int_of_byte y) 8) as H1.
  change (2 ^ 8) with 256 in H1. lia.
Qed.

Lemma lxor_mod_256 (a b : Z) :
  Z.lxor a b mod 256 = Z.lxor (a mod 256) (b mod 256).
Proof.
  change 256 with (2 ^ 8). apply Z.bits_inj'. intros n Hn.
  rewrite Z.lxor_spec. destruct (Z.lt_ge_cases n 8) as [Hlow|Hhigh].
  - now rewrite !Z.mod_pow2_bits_low, Z.lxor_spec by lia.
  - now rewrite !Z.mod_pow2_bits_high by lia.
Qed.

Lemma lxor_div_256 (a b : Z) :
  Z.lxor a b / 256 = Z.lxor (a / 256) (b / 256).
Proof.
  change 256 with (2 ^ 8). rewrite <- !Z.shiftr_div_pow2 by lia.
  apply Z.shiftr_lxor.
Qed.

Lemma combine_snoc (a b : bytes) (x y : byte) :
  List.length a = List.length b ->
  combine (a ++ [x]) (b ++ [y]) = combine a b ++ [(x, y)].
Proof.
  revert b. induction a as [|u a IH]; intros [|v b] Hl; try discriminate.
  - reflexivity.
  - simpl. f_equal. apply IH. now injection Hl.
Qed.

Lemma big_endian_lxor (a b : bytes) :
  List.length a = List.length b ->
  big_endian (List.length a) (Z.lxor (from_bytes a) (from_bytes b))
  = map (fun xy => byte_xor (fst xy) (snd xy)) (combine a b).
Proof.
  revert b. induction a as [|x a IH] using rev_ind; intros b Hl.
  - reflexivity.
  - induction b as [|y b _] using rev_ind;
      [rewrite length_app in Hl; simpl in Hl; lia|].
    rewrite !length_app, !Nat.add_1_r in Hl. injection Hl as Hl.
    rewrite length_app, Nat.add_1_r, combine_snoc, map_app by exact Hl.
    cbn [big_endian map fst snd]. rewrite !from_bytes_snoc.
    pose proof (int_of_byte_range x). pose proof (int_of_byte_range y).
    rewrite lxor_div_256, lxor_mod_256.
    rewrite !Z.div_add_l, !Z.div_small, !Z.add_0_r by lia.
    rewrite !(Z.add_comm (_ * 256)), !Z.mod_add, !Z.mod_small by lia.
    now rewrite IH.
Qed.

Lemma big_endian_zero (k : nat) : big_endian k 0 = repeat x00 k.
Proof.
  induction k as [|k IH]; [reflexivity|].
  rewrite repeat_snoc. cbn [big_endian]. change (0 / 256) with 0.
  now rewrite IH.
Qed.

Lemma xorstring_value (a b : bytes) :
  len a = len b ->
  xorstring a b
  = inr (big_endian (List.length a) (Z.lxor (from_bytes a) (from_bytes b))).
Proof.
  intros Hl. unfold xorstring, string2number. rewrite Hl, Z.eqb_refl.
  pose proof (from_bytes_range a) as Ha. pose proof (from_bytes_range b) as Hb.
  rewrite <- Hl in *. pose proof (len_nonneg a) as Hn.
  pose proof (lxor_below_pow256 _ _ _ Hn Ha Hb) as Hx.
  rewrite number2string_N_nonneg, to_bytes_fits by lia.
  unfold len. now rewrite Nat2Z.id.
Qed.

End Xor.

(** [xorstring] is the bytewise exclusive or: on two strings of the same
    length it returns, position by position, the exclusive or of their bytes;
    on strings of different lengths the assertion fails. *)
Theorem xorstring_bytewise (a b : bytes) :
  (len a = len b ->
   Util.xorstring a b
   = inr (map (fun xy => Util.byte_xor (fst xy) (snd xy)) (combine a b))) /\
  (len a <> len b -> Util.xorstring a b = inl Util.AssertionError).
Proof.
  split; intros Hl.
  - rewrite xorstring_value by exact Hl. f_equal. apply big_endian_lxor.
    unfold len in Hl. lia.
  - unfold Util.xorstring. apply Z.eqb_neq in Hl. now rewrite Hl.
Qed.

Lemma xorstring_bytewise_at_2 :
  Util.xorstring [x0f; xff] [xf0; x0f]
    = inr (map (fun xy => Util.byte_xor (fst xy) (snd xy))
             (combine [x0f; xff] [xf0; x0f])) /\
  Util.xorstring [x0f; xff] [xf0] = inl Util.AssertionError.
Proof.
  destruct (xorstring_bytewise [x0f; xff] [xf0; x0f]) as [Heq _].
  destruct (xorstring_bytewise [x0f; xff] [xf0]) as [_ Hne].
  split; [apply Heq; reflexivity|apply Hne; discriminate].
Defined.

(** On strings of the same length [xorstring] returns a string of that
    length, does not depend on the order of its arguments, and is undone by
    a second call with the same key; a string xored with itself is all
    zero bytes. *)
Theorem xorstring_involution (a b : bytes) :
  len a = len b ->
  exists c,
    Util.xorstring a b = inr c /\
    len c = len a /\
    Util.xorstring b a = inr c /\
    Util.xorstring c b = inr a /\
    Util.xorstring a a = inr (repeat x00 (List.length a)).
Proof.
  intros Hl.
  assert (Hn : List.length a = List.length b) by (unfold len in Hl; lia).
  pose proof (from_bytes_range a) as Ha. pose proof (from_bytes_range b) as Hb.
  rewrite <- Hl in Hb.
  pose proof (lxor_below_pow256 _ _ _ (len_nonneg a) Ha Hb) as Hx.
  set (c := Util.big_endian (List.length a)
              (Z.lxor (Util.from_bytes a) (Util.from_bytes b))).
  assert (Hlc : List.length c = List.length a)
    by (unfold c; apply length_big_endian).
  assert (Hc : Util.from_bytes c
               = Z.lxor (Util.from_bytes a) (Util.from_bytes b))
    by (unfold c; apply from_bytes_big_endian; exact Hx).
  exists c. split; [now apply xorstring_value|].
  split; [unfold len; lia|]. split; [|split].
  - rewrite xorstring_value by lia. unfold c.
    now rewrite Z.lxor_comm, Hn.
  - rewrite xorstring_value by (unfold len in *; lia).
    rewrite Hc, Z.lxor_assoc, Z.lxor_nilpotent, Z.lxor_0_r, Hlc.
    now rewrite big_endian_from_bytes.
  - rewrite xorstring_value by reflexivity.
    rewrite Z.lxor_nilpotent. now rewrite big_endian_zero.
Qed.

Lemma xorstring_involution_at_2 :
  exists c,
    Util.xorstring [x0f; xff] [xf0; x0f] = inr c /\
    len c = len [x0f; xff] /\
    Util.xorstring [xf0; x0f] [x0f; xff] = inr c /\
    Util.xorstring c [xf0; x0f] = inr [x0f; xff] /\
    Util.xorstring [x0f; xff] [x0f; xff]
      = inr (repeat x00 (List.length [x0f; xff])).
Proof. apply (xorstring_involution [x0f; xff] [xf0; x0f]). reflexivity. Defined.

(** ** CryptoPlus.Util.util: Counter *)

Lemma Counter_call_in_range (v : Z) :
  0 <= v < 2 ^ 128 ->
  Util.__call__ (Util.mkCounter v)
  = (Util.mkCounter (v + 1), inr (Util.big_endian 16 v)).
Proof.
  intros Hv. unfold Util.__call__. cbn [Util.c].
  rewrite number2string_N_nonneg, to_bytes_fits by
    first [lia|change (256 ^ 16) with (2 ^ 128); lia].
  reflexivity.
Qed.

Lemma Counter_call_exhausted (v : Z) :
  2 ^ 128 <= v ->
  Util.__call__ (Util.mkCounter v)
  = (Util.mkCounter v, inl (Util.OverflowError "int too big to convert")).
Proof.
  intros Hv. unfold Util.__call__. cbn [Util.c].
  assert (0 < 2 ^ 128) by (apply Z.pow_pos_nonneg; lia).
  rewrite number2string_N_nonneg, to_bytes_too_big by
    first [lia|change (256 ^ 16) with (2 ^ 128); lia].
  reflexivity.
Qed.

Lemma Counter_blocks_in_range (k : nat) (v : Z) :
  0 <= v -> v + Z.of_nat k <= 2 ^ 128 ->
  Util.blocks k (Util.mkCounter v)
  = (Util.mkCounter (v + Z.of_nat k),
     inr (map (fun j => Util.big_endian 16 (v + Z.of_nat j)) (seq 0 k))).
Proof.
  revert v. induction k as [|k IH]; intros v Hv Hk.
  - simpl. now rewrite Z.add_0_r.
  - cbn [Util.blocks]. rewrite Counter_call_in_range by lia.
    rewrite IH by lia. cbn [seq map]. rewrite Z.add_0_r.
    rewrite <- seq_shift, map_map.
    replace (v + 1 + Z.of_nat k) with (v + Z.of_nat (S k)) by lia.
    do 3 f_equal. apply map_ext. intros j. f_equal. lia.
Qed.

(** A counter made from the bytes [nonce] hands out, call after call, the
    16-byte big-endian encodings of [string2number(nonce)],
    [string2number(nonce) + 1], and so on, for as long as the value stays
    below [2 ^ 128]; after [k] calls its field holds the start value plus
    [k]. *)
Theorem Counter_counts_up (nonce : bytes) (k : nat) :
  Util.string2number nonce + Z.of_nat k <= 2 ^ 128 ->
  exists ctr ctr' out,
    Util.__init__ (Util.PyBytes nonce) = inr ctr /\
    Util.blocks k ctr = (ctr', inr out) /\
    Util.c ctr' = Util.string2number nonce + Z.of_nat k /\
    List.length out = k /\
    (forall j, (j < k)%nat ->
       exists block,
         nth_error out j = Some block /\
         len block = 16 /\
         Util.string2number block = Util.string2number nonce + Z.of_nat j).
Proof.
  intros Hk. pose proof (from_bytes_range nonce) as [Hv _].
  fold (Util.string2number nonce) in Hv.
  set (v := Util.string2number nonce) in *.
  exists (Util.mkCounter v), (Util.mkCounter (v + Z.of_nat k)),
         (map (fun j => Util.big_endian 16 (v + Z.of_nat j)) (seq 0 k)).
  split; [reflexivity|]. split; [now apply Counter_blocks_in_range|].
  split; [reflexivity|]. split; [now rewrite length_map, length_seq|].
  intros j Hj. exists (Util.big_endian 16 (v + Z.of_nat j)).
  split; [|split].
  - rewrite nth_error_map, nth_error_seq.
    destruct (Nat.ltb_spec j k); [reflexivity|lia].
  - unfold len. now rewrite length_big_endian.
  - apply from_bytes_big_endian. change (256 ^ Z.of_nat 16) with (2 ^ 128).
    lia.
Qed.

Lemma Counter_counts_up_at_255 :
  exists ctr ctr' out,
    Util.__init__ (Util.PyBytes [xff]) = inr ctr /\
    Util.blocks 3 ctr = (ctr', inr out) /\
    Util.c ctr' = Util.string2number [xff] + Z.of_nat 3 /\
    List.length out = 3%nat /\
    (forall j, (j < 3)%nat ->
       exists block,
         nth_error out j = Some block /\
         len block = 16 /\
         Util.string2number block = Util.string2number [xff] + Z.of_nat j).
Proof.
  apply (Counter_counts_up [xff] 3).
  assert (0 < 2 ^ 128) by (apply Z.pow_pos_nonneg; lia).
  change (Util.string2number [xff]) with 255.
  assert (2 ^ 9 <= 2 ^ 128) by (apply Z.pow_le_mono_r; lia).
  change (2 ^ 9) with 512 in *. lia.
Defined.

(** A counter whose value has reached [2 ^ 128] no longer fits in 16 bytes:
    the call raises [OverflowError] and leaves the value as it was, so every
    later call raises too. *)
Theorem Counter_exhausted (self : Util.Counter) (k : nat) :
  2 ^ 128 <= Util.c self ->
  Util.__call__ self
    = (self, inl (Util.OverflowError "int too big to convert")) /\
  Util.blocks (S k) self
    = (self, inl (Util.OverflowError "int too big to convert")).
Proof.
  intros Hc. destruct self as [v]. cbn [Util.c] in Hc.
  pose proof (Counter_call_exhausted v Hc) as H.
  split; [exact H|]. cbn [Util.blocks]. now rewrite H.
Qed.

Lemma Counter_exhausted_at_17_bytes :
  Util.__call__ (Util.mkCounter (Util.string2number (x01 :: repeat x00 16)))
    = (Util.mkCounter (Util.string2number (x01 :: repeat x00 16)),
       inl (Util.OverflowError "int too big to convert")) /\
  Util.blocks 2 (Util.mkCounter (Util.string2number (x01 :: repeat x00 16)))
    = (Util.mkCounter (Util.string2number (x01 :: repeat x00 16)),
       inl (Util.OverflowError "int too big to convert")).
Proof.
  apply (Counter_exhausted
           (Util.mkCounter (Util.string2number (x01 :: repeat x00 16))) 1).
  vm_compute. discriminate.
Defined.
